(** * Node launcher and node targets ([src/targets/node/nodeDelegate.ts])

    A shallow embedding of [NodeLauncher], [NodeTarget] and [onProcessExit].

    - Synchronous methods are functions on a first-order [Store]: the
      module-level [counter], the launcher's fields, the [NodeTarget]
      objects (addressed by reference, so that [_parent] and [_children]
      alias as they do in JavaScript) and a trace of the calls made to the
      collaborators (terminal, server, connections, CDP, event emitters).
    - [async] methods are programs of a small continuation-passing monad
      [Prog]; a promise heap with reaction lists and a microtask queue
      gives them the run-to-completion semantics of the JavaScript event
      loop.  Remote calls, [terminal.processId] and the breakpoint
      predictor return promises that only the environment settles. *)

From Stdlib Require Import ZArith Lia Ascii String.
From stdpp Require Import gmap strings list pretty.

Set Warnings "-register-all".

Local Open Scope string_scope.
Local Open Scope list_scope.
Local Open Scope nat_scope.

(** ** Values *)

Definition ref := nat.   (* identity of a NodeTarget object *)
Definition pid := nat.   (* identity of a promise *)

(** [Cdp.Target.TargetInfo], the fields the constructor reads. *)
Record TargetInfo := {
  targetId : string;
  title : string;
  openerId : option string;
  type_ : string
}.

Inductive value : Type :=
| VUndefined
| VNum (n : N)
| VCdpApi (session : nat)       (* a [Cdp.Api] handle *)
| VError (code : option string) (* a thrown error and its [code] property *)
| VTargetCreated (targetInfo : TargetInfo) (* a [Cdp.Target.TargetCreatedEvent] *)
| VPromise (p : pid)
| VArray (vs : list value).

(** The argument of [launch(params: any)]; an absent key is [None]. *)
Record LaunchParams := {
  command : option string;
  cwd : option string;
  env : option (gmap string string);
  attachToNode : option string
}.

(** The hosting process: [process.platform], [process.pid], [process.env],
    [os.tmpdir()] and [__dirname]; and the two functions of Node's [path]
    module that this file calls and does not define, [path.join] on two
    arguments and [path.basename]. *)
Record Host := {
  platform : string;
  host_pid : N;
  process_env : gmap string string;
  tmpdir : string;
  dirname : string;
  path_join : string → string → string;
  path_basename : string → string
}.

(** ** Objects *)

Record NodeTarget := {
  _connection : nat;
  _cdp : nat;
  _parent : option ref;
  _children : list ref;
  _targetId : string;
  _targetName : string;
  _scriptName : string;
  _serialize : pid;
  _attached : bool;
  _waitingForDebugger : bool
}.

Record NodeLauncher := {
  _rootPath : option string;
  _server : option string;          (* the listening [net.Server], by its path *)
  _terminal : option nat;
  _connections : list nat;
  _launchParams : option LaunchParams;
  _pipe : option string;
  _isRestarting : bool;
  _targets : gmap string ref;
  _launchBlocker : pid;
  _breakpointsPredictor : bool      (* whether a predictor was created *)
}.

(** Calls to a collaborator that answer with a promise; only the environment
    settles it. *)
Inductive request : Type :=
| AttachToTarget (session : nat) (id : string)   (* [cdp.Target.attachToTarget] *)
| DetachFromTarget (session : nat) (id : string) (* [cdp.Target.detachFromTarget] *)
| ProcessId (terminal : nat)                     (* [terminal.processId] *)
| OnSetBreakpoints (params : nat)                (* [predictor.onSetBreakpoints] *)
| TargetCreated (session : nat).                 (* first ['targetCreated'] event *)

(** Calls that leave the program: what a test double would record. *)
Inductive effect : Type :=
| CreateTerminal (h : nat) (name : string) (dir : option string)
    (e : gmap string (option string))
| TerminalShow (h : nat)
| TerminalSendText (h : nat) (text : string)
| TerminalDispose (h : nat)
| ServerListen (path : string)
| ServerClose (path : string)
| ConnectionClose (c : nat)
| FireTerminated
| FireTargetListChanged
| Request (r : request) (answer : pid)
| RuntimeOn (session : nat) (event : string)
| TargetOn (session : nat) (event : string)
| ProcessKill (id : string).

Record Store := {
  counter : N;                       (* [let counter = 0] *)
  launcher : NodeLauncher;
  objs : gmap ref NodeTarget;
  next_ref : ref;
  next_terminal : nat;
  next_session : nat;
  onDisconnected : list (nat * ref); (* [connection.onDisconnected] handlers *)
  trace : list effect
}.

(** Field updates. *)

Definition set_parent (p : option ref) (o : NodeTarget) : NodeTarget :=
  {| _connection := _connection o; _cdp := _cdp o; _parent := p;
     _children := _children o; _targetId := _targetId o;
     _targetName := _targetName o; _scriptName := _scriptName o;
     _serialize := _serialize o; _attached := _attached o;
     _waitingForDebugger := _waitingForDebugger o |}.

Definition set_children (c : list ref) (o : NodeTarget) : NodeTarget :=
  {| _connection := _connection o; _cdp := _cdp o; _parent := _parent o;
     _children := c; _targetId := _targetId o;
     _targetName := _targetName o; _scriptName := _scriptName o;
     _serialize := _serialize o; _attached := _attached o;
     _waitingForDebugger := _waitingForDebugger o |}.

Definition set_serialize (p : pid) (o : NodeTarget) : NodeTarget :=
  {| _connection := _connection o; _cdp := _cdp o; _parent := _parent o;
     _children := _children o; _targetId := _targetId o;
     _targetName := _targetName o; _scriptName := _scriptName o;
     _serialize := p; _attached := _attached o;
     _waitingForDebugger := _waitingForDebugger o |}.

Definition set_attached (b : bool) (o : NodeTarget) : NodeTarget :=
  {| _connection := _connection o; _cdp := _cdp o; _parent := _parent o;
     _children := _children o; _targetId := _targetId o;
     _targetName := _targetName o; _scriptName := _scriptName o;
     _serialize := _serialize o; _attached := b;
     _waitingForDebugger := _waitingForDebugger o |}.

Definition set_waitingForDebugger (b : bool) (o : NodeTarget) : NodeTarget :=
  {| _connection := _connection o; _cdp := _cdp o; _parent := _parent o;
     _children := _children o; _targetId := _targetId o;
     _targetName := _targetName o; _scriptName := _scriptName o;
     _serialize := _serialize o; _attached := _attached o;
     _waitingForDebugger := b |}.

Definition set_server (v : option string) (l : NodeLauncher) : NodeLauncher :=
  {| _rootPath := _rootPath l; _server := v; _terminal := _terminal l;
     _connections := _connections l; _launchParams := _launchParams l;
     _pipe := _pipe l; _isRestarting := _isRestarting l;
     _targets := _targets l; _launchBlocker := _launchBlocker l;
     _breakpointsPredictor := _breakpointsPredictor l |}.

Definition set_terminal (v : option nat) (l : NodeLauncher) : NodeLauncher :=
  {| _rootPath := _rootPath l; _server := _server l; _terminal := v;
     _connections := _connections l; _launchParams := _launchParams l;
     _pipe := _pipe l; _isRestarting := _isRestarting l;
     _targets := _targets l; _launchBlocker := _launchBlocker l;
     _breakpointsPredictor := _breakpointsPredictor l |}.

Definition set_connections (v : list nat) (l : NodeLauncher) : NodeLauncher :=
  {| _rootPath := _rootPath l; _server := _server l; _terminal := _terminal l;
     _connections := v; _launchParams := _launchParams l;
     _pipe := _pipe l; _isRestarting := _isRestarting l;
     _targets := _targets l; _launchBlocker := _launchBlocker l;
     _breakpointsPredictor := _breakpointsPredictor l |}.

Definition set_launchParams (v : option LaunchParams) (l : NodeLauncher)
  : NodeLauncher :=
  {| _rootPath := _rootPath l; _server := _server l; _terminal := _terminal l;
     _connections := _connections l; _launchParams := v;
     _pipe := _pipe l; _isRestarting := _isRestarting l;
     _targets := _targets l; _launchBlocker := _launchBlocker l;
     _breakpointsPredictor := _breakpointsPredictor l |}.

Definition set_pipe (v : option string) (l : NodeLauncher) : NodeLauncher :=
  {| _rootPath := _rootPath l; _server := _server l; _terminal := _terminal l;
     _connections := _connections l; _launchParams := _launchParams l;
     _pipe := v; _isRestarting := _isRestarting l;
     _targets := _targets l; _launchBlocker := _launchBlocker l;
     _breakpointsPredictor := _breakpointsPredictor l |}.

Definition set_isRestarting (v : bool) (l : NodeLauncher) : NodeLauncher :=
  {| _rootPath := _rootPath l; _server := _server l; _terminal := _terminal l;
     _connections := _connections l; _launchParams := _launchParams l;
     _pipe := _pipe l; _isRestarting := v;
     _targets := _targets l; _launchBlocker := _launchBlocker l;
     _breakpointsPredictor := _breakpointsPredictor l |}.

Definition set_targets (v : gmap string ref) (l : NodeLauncher) : NodeLauncher :=
  {| _rootPath := _rootPath l; _server := _server l; _terminal := _terminal l;
     _connections := _connections l; _launchParams := _launchParams l;
     _pipe := _pipe l; _isRestarting := _isRestarting l;
     _targets := v; _launchBlocker := _launchBlocker l;
     _breakpointsPredictor := _breakpointsPredictor l |}.

Definition set_launchBlocker (v : pid) (l : NodeLauncher) : NodeLauncher :=
  {| _rootPath := _rootPath l; _server := _server l; _terminal := _terminal l;
     _connections := _connections l; _launchParams := _launchParams l;
     _pipe := _pipe l; _isRestarting := _isRestarting l;
     _targets := _targets l; _launchBlocker := v;
     _breakpointsPredictor := _breakpointsPredictor l |}.

Definition upd_launcher (f : NodeLauncher → NodeLauncher) (s : Store) : Store :=
  {| counter := counter s; launcher := f (launcher s); objs := objs s;
     next_ref := next_ref s; next_terminal := next_terminal s;
     next_session := next_session s; onDisconnected := onDisconnected s;
     trace := trace s |}.

Definition set_objs (m : gmap ref NodeTarget) (s : Store) : Store :=
  {| counter := counter s; launcher := launcher s; objs := m;
     next_ref := next_ref s; next_terminal := next_terminal s;
     next_session := next_session s; onDisconnected := onDisconnected s;
     trace := trace s |}.

Definition set_counter (c : N) (s : Store) : Store :=
  {| counter := c; launcher := launcher s; objs := objs s;
     next_ref := next_ref s; next_terminal := next_terminal s;
     next_session := next_session s; onDisconnected := onDisconnected s;
     trace := trace s |}.

Definition set_next_ref (r : ref) (s : Store) : Store :=
  {| counter := counter s; launcher := launcher s; objs := objs s;
     next_ref := r; next_terminal := next_terminal s;
     next_session := next_session s; onDisconnected := onDisconnected s;
     trace := trace s |}.

Definition set_next_terminal (h : nat) (s : Store) : Store :=
  {| counter := counter s; launcher := launcher s; objs := objs s;
     next_ref := next_ref s; next_terminal := h;
     next_session := next_session s; onDisconnected := onDisconnected s;
     trace := trace s |}.

Definition set_next_session (c : nat) (s : Store) : Store :=
  {| counter := counter s; launcher := launcher s; objs := objs s;
     next_ref := next_ref s; next_terminal := next_terminal s;
     next_session := c; onDisconnected := onDisconnected s;
     trace := trace s |}.

Definition set_onDisconnected (l : list (nat * ref)) (s : Store) : Store :=
  {| counter := counter s; launcher := launcher s; objs := objs s;
     next_ref := next_ref s; next_terminal := next_terminal s;
     next_session := next_session s; onDisconnected := l;
     trace := trace s |}.

(** Record a call to a collaborator, in program order. *)
Definition emit (e : effect) (s : Store) : Store :=
  {| counter := counter s; launcher := launcher s; objs := objs s;
     next_ref := next_ref s; next_terminal := next_terminal s;
     next_session := next_session s; onDisconnected := onDisconnected s;
     trace := trace s ++ [e] |}.

Definition no_target : NodeTarget :=
  {| _connection := 0; _cdp := 0; _parent := None; _children := [];
     _targetId := ""; _targetName := ""; _scriptName := "";
     _serialize := 0; _attached := false; _waitingForDebugger := false |}.

(** Dereference.  Objects are never deallocated (a target removed from the
    launcher's map stays reachable from whoever still points at it). *)
Definition target (s : Store) (r : ref) : NodeTarget :=
  default no_target (objs s !! r).

Definition upd_target (r : ref) (f : NodeTarget → NodeTarget) (s : Store) : Store :=
  set_objs (alter f r (objs s)) s.

(** ** JavaScript arrays *)

(** [Array.prototype.indexOf] on object identities; [-1] when absent. *)
Fixpoint indexOf (x : ref) (l : list ref) : Z :=
  match l with
  | [] => -1
  | y :: l' =>
      if Nat.eqb y x then 0%Z
      else match indexOf x l' with
           | Z.neg _ => -1
           | i => (i + 1)%Z
           end
  end.

(** [Array.prototype.splice(start, deleteCount)], as a statement: a negative
    [start] counts from the end, and both ends are clamped. *)
Definition splice (start : Z) (deleteCount : nat) (l : list ref) : list ref :=
  let len := Z.of_nat (length l) in
  let actual := if (start <? 0)%Z then Z.max (len + start) 0 else Z.min start len in
  take (Z.to_nat actual) l ++ drop (Z.to_nat actual + deleteCount) l.

(** [Array.prototype.forEach]: the length is read once, before the first
    call; at each index the array is read again, and an index that is no
    longer present is skipped.  [arr] reads the array out of the store the
    callback has just left. *)
Fixpoint forEach_from (len k : nat) (arr : Store → list ref)
    (callback : ref → Store → Store) (s : Store) : Store :=
  match len with
  | O => s
  | S len' =>
      let s' := match arr s !! k with
                | Some x => callback x s
                | None => s
                end in
      forEach_from len' (S k) arr callback s'
  end.

Definition forEach (arr : Store → list ref) (callback : ref → Store → Store)
    (s : Store) : Store :=
  forEach_from (length (arr s)) 0 arr callback s.

(** ** NodeTarget: the target tree *)

(** [_setParent(parent?)], lines 252-258. *)
Definition _setParent (this : ref) (parent : option ref) (s : Store) : Store :=
  let s1 :=
    match _parent (target s this) with
    | Some p =>
        upd_target p
          (λ o, set_children (splice (indexOf this (_children o)) 1 (_children o)) o) s
    | None => s
    end in
  let s2 := upd_target this (set_parent parent) s1 in
  match parent with
  | Some p => upd_target p (λ o, set_children (_children o ++ [this]) o) s2
  | None => s2
  end.

(** The constructor, lines 181-197.  [serialize] is the promise made by the
    field initialiser [Promise.resolve(undefined)]. *)
Definition NodeTarget_new (h : Host) (serialize : pid) (connection cdp : nat)
    (targetInfo : TargetInfo) (s : Store) : ref * Store :=
  let this := next_ref s in
  let o :=
    {| _connection := connection;
       _cdp := cdp;
       _parent := None;
       _children := [];
       _targetId := targetId targetInfo;
       _targetName :=
         if String.eqb (title targetInfo) ""
         then "[" +:+ targetId targetInfo +:+ "]"
         else path_basename h (title targetInfo)
                +:+ " [" +:+ targetId targetInfo +:+ "]";
       _scriptName := title targetInfo;
       _serialize := serialize;
       _attached := false;
       _waitingForDebugger := String.eqb (type_ targetInfo) "waitingForDebugger" |} in
  let s1 := set_next_ref (S this) (set_objs (<[this := o]> (objs s)) s) in
  let s2 :=
    _setParent this
      (openerId targetInfo ≫= λ id, _targets (launcher s1) !! id) s1 in
  let s3 :=
    upd_launcher
      (λ l, set_targets (<[targetId targetInfo := this]> (_targets l)) l) s2 in
  let s4 := emit (TargetOn cdp "targetDestroyed") s3 in
  let s5 := set_onDisconnected (onDisconnected s4 ++ [(connection, this)]) s4 in
  (this, s5).

(** The queries of the [Target] interface, lines 199-250 and 268-299. *)
Module Target.
Definition id (s : Store) (this : ref) : string := _targetId (target s this).
Definition name (s : Store) (this : ref) : string := _targetName (target s this).
Definition fileName (s : Store) (this : ref) : string := _scriptName (target s this).
Definition parent (s : Store) (this : ref) : option ref := _parent (target s this).
Definition children (s : Store) (this : ref) : list ref := _children (target s this).
Definition waitingForDebugger (s : Store) (this : ref) : bool :=
  _waitingForDebugger (target s this).
Definition hasParent (s : Store) (this : ref) : bool :=
  bool_decide (is_Some (_parent (target s this))).
Definition canAttach (s : Store) (this : ref) : bool := negb (_attached (target s this)).
Definition canDetach (s : Store) (this : ref) : bool := _attached (target s this).
End Target.

(** [_disconnected()], lines 260-266.  The method is [async] but never
    awaits: its whole body runs when the disconnect handler calls it. *)
Definition _disconnected (this : ref) (s : Store) : Store :=
  let s1 :=
    forEach (λ s, _children (target s this))
            (λ child s, _setParent child (_parent (target s this)) s) s in
  let s2 := _setParent this None s1 in
  let s3 :=
    upd_launcher
      (λ l, set_targets (delete (_targetId (target s2 this)) (_targets l)) l) s2 in
  emit FireTargetListChanged s3.

(** What [process.kill] does: return, or throw an error with a [code]. *)
Inductive kill_result : Type :=
| KillOk
| KillThrows (code : option string).

(** [stop()], lines 324-327.  When [process.kill] throws (the process is
    gone, say) the connection is not closed. *)
Definition stop (result : kill_result) (this : ref) (s : Store) : Store :=
  let s1 := emit (ProcessKill (_targetId (target s this))) s in
  match result with
  | KillOk => emit (ConnectionClose (_connection (target s this))) s1
  | KillThrows _ => s1
  end.

(** ** NodeLauncher: the synchronous methods *)

(** [a || b] on a possibly absent string: the empty string is falsy. *)
Definition or_else (a : option string) (b : string) : string :=
  match a with
  | Some s => if String.eqb s "" then b else s
  | None => b
  end.

Definition or_else_opt (a b : option string) : option string :=
  match a with
  | Some s => if String.eqb s "" then b else Some s
  | None => b
  end.

(** [++counter] on a JavaScript number: exact below 2^53, where the addition
    rounds back to the same value. *)
Definition pre_increment (c : N) : N :=
  if (c <? 2 ^ 53)%N then (c + 1)%N else c.

Definition pipePrefix (h : Host) : string :=
  if String.eqb (platform h) "win32" then "\\.\pipe\" else tmpdir h.

Definition socket_name (h : Host) (c : N) : string :=
  "node-cdp." +:+ pretty (host_pid h) +:+ "-" +:+ pretty c +:+ ".sock".

(** [_startServer()], lines 113-119. *)
Definition _startServer (h : Host) (s : Store) : Store :=
  let c := pre_increment (counter s) in
  let pipe := path_join h (pipePrefix h) (socket_name h c) in
  emit (ServerListen pipe)
    (upd_launcher (λ l, set_server (Some pipe) (set_pipe (Some pipe) l))
       (set_counter c s)).

(** [_stopServer()], lines 121-127. *)
Definition _stopServer (s : Store) : Store :=
  let s1 :=
    match _server (launcher s) with
    | Some path => emit (ServerClose path) s
    | None => s
    end in
  let s2 := upd_launcher (set_server None) s1 in
  let s3 := foldl (λ s c, emit (ConnectionClose c) s) s2 (_connections (launcher s2)) in
  upd_launcher (set_connections []) s3.

(** [_killRuntime()], lines 96-101. *)
Definition _killRuntime (s : Store) : Store :=
  match _terminal (launcher s) with
  | None => s
  | Some h => upd_launcher (set_terminal None) (emit (TerminalDispose h) s)
  end.

(** [dispose()], lines 142-144. *)
Definition dispose (s : Store) : Store := _stopServer s.

(** [_buildEnv()], lines 146-157.  A key holding [None] holds [undefined]
    ([_pipe] before the first [_startServer]); the result is [None] when
    [_launchParams!] is dereferenced while undefined. *)
Definition _buildEnv (h : Host) (l : NodeLauncher)
  : option (gmap string (option string)) :=
  lp ← _launchParams l;
  let bootloaderJS := path_join h (dirname h) "bootloader.js" in
  let spread : gmap string (option string) :=
    Some <$> (default ∅ (env lp) ∪ process_env h) in
  let result :=
    <["NODE_OPTIONS" :=
        Some (or_else (process_env h !! "NODE_OPTIONS") ""
                +:+ " --require " +:+ bootloaderJS)]>
      (<["NODE_INSPECTOR_WAIT_FOR_DEBUGGER" :=
           Some (or_else (attachToNode lp) "never")]>
         (<["NODE_INSPECTOR_IPC" := _pipe l]> spread)) in
  Some (delete "ELECTRON_RUN_AS_NODE" result).

(** ** Asynchronous programs *)

(** The body of a function, in continuation-passing style.  [Ret] and
    [Throw] end the function; [Await] suspends it.  No [async] function of
    this file has a [try] block, so a rejected [await] is a [Throw]. *)
Inductive Prog : Type :=
| Ret (v : value)
| Throw (e : value)
| Get (k : Store → Prog)
| Put (f : Store → Store) (k : Prog)
| Await (v : value) (k : value → Prog)
| Then (p : pid) (callback : value → Prog) (k : pid → Prog)
    (* [p.then(async v => callback)] *)
| CallAsync (body : Prog) (k : pid → Prog)
    (* a call of an [async] function *)
| PromiseResolve (v : value) (k : pid → Prog)
| PromiseAll (ps : list pid) (k : pid → Prog)
| Call (r : request) (k : pid → Prog)
| SetInterval (handler : nat → (value → kill_result) → Prog) (ms : N)
    (k : nat → Prog)
| ClearInterval (interval : nat) (k : Prog).

Inductive pstate : Type :=
| Pending
| Fulfilled (v : value)
| Rejected (e : value).

(** What a promise owes once it settles: to resume a suspended function or
    run a [then] callback, whose outcome settles [self]; or to fill one slot
    of a [Promise.all]. *)
Inductive reaction : Type :=
| RCont (k : value → Prog) (self : pid)
| RAllElement (all : pid) (index : nat).

Inductive job : Type :=
| JFulfil (r : reaction) (v : value)
| JReject (r : reaction) (e : value).

Record cell := {
  state : pstate;
  reactions : list reaction;
  elements : list (option value)   (* the [values] of a [Promise.all] *)
}.

Record timer := {
  handler : (value → kill_result) → Prog;
  period : N;
  active : bool
}.

Record World := {
  store : Store;
  heap : gmap pid cell;
  next_pid : pid;
  microtasks : list job;
  timers : list timer
}.

Definition upd_store (f : Store → Store) (w : World) : World :=
  {| store := f (store w); heap := heap w; next_pid := next_pid w;
     microtasks := microtasks w; timers := timers w |}.

Definition set_heap (m : gmap pid cell) (w : World) : World :=
  {| store := store w; heap := m; next_pid := next_pid w;
     microtasks := microtasks w; timers := timers w |}.

Definition set_microtasks (q : list job) (w : World) : World :=
  {| store := store w; heap := heap w; next_pid := next_pid w;
     microtasks := q; timers := timers w |}.

Definition set_timers (t : list timer) (w : World) : World :=
  {| store := store w; heap := heap w; next_pid := next_pid w;
     microtasks := microtasks w; timers := t |}.

Definition pending_cell : cell :=
  {| state := Pending; reactions := []; elements := [] |}.

Definition promise (w : World) (p : pid) : cell :=
  default pending_cell (heap w !! p).

Definition alloc (c : cell) (w : World) : pid * World :=
  (next_pid w,
   {| store := store w; heap := <[next_pid w := c]> (heap w);
      next_pid := S (next_pid w); microtasks := microtasks w;
      timers := timers w |}).

Definition enqueue (js : list job) (w : World) : World :=
  set_microtasks (microtasks w ++ js) w.

(** Settle a pending promise and schedule its reactions; a settled promise
    stays as it is. *)
Definition settle (p : pid) (st : pstate) (w : World) : World :=
  let c := promise w p in
  match state c, st with
  | Pending, Fulfilled v =>
      enqueue ((λ r, JFulfil r v) <$> reactions c)
        (set_heap (<[p := {| state := st; reactions := []; elements := elements c |}]>
                     (heap w)) w)
  | Pending, Rejected e =>
      enqueue ((λ r, JReject r e) <$> reactions c)
        (set_heap (<[p := {| state := st; reactions := []; elements := elements c |}]>
                     (heap w)) w)
  | _, _ => w
  end.

(** [q.then(...)] at the level of reactions. *)
Definition subscribe (q : pid) (r : reaction) (w : World) : World :=
  let c := promise w q in
  match state c with
  | Pending =>
      set_heap (<[q := {| state := Pending; reactions := reactions c ++ [r];
                          elements := elements c |}]> (heap w)) w
  | Fulfilled v => enqueue [JFulfil r v] w
  | Rejected e => enqueue [JReject r e] w
  end.

(** Resolve [p] with [v]: a promise is adopted, anything else fulfils. *)
Definition resolve (p : pid) (v : value) (w : World) : World :=
  match v with
  | VPromise q => subscribe q (RCont Ret p) w
  | _ => settle p (Fulfilled v) w
  end.

Fixpoint subscribe_all (ps : list pid) (index : nat) (all : pid) (w : World)
  : World :=
  match ps with
  | [] => w
  | p :: ps' => subscribe_all ps' (S index) all (subscribe p (RAllElement all index) w)
  end.

(** Run a function body up to its first suspension.  [self] is the promise
    of the enclosing [async] function, or [None] for a plain callback. *)
Fixpoint exec (prog : Prog) (self : option pid) (w : World) : World :=
  match prog with
  | Ret v =>
      match self with Some p => resolve p v w | None => w end
  | Throw e =>
      match self with Some p => settle p (Rejected e) w | None => w end
  | Get k => exec (k (store w)) self w
  | Put f k => exec k self (upd_store f w)
  | Await v k =>
      match self with
      | Some p =>
          match v with
          | VPromise q => subscribe q (RCont k p) w
          | _ => enqueue [JFulfil (RCont k p) v] w
          end
      | None => w
      end
  | Then p callback k =>
      let '(d, w1) := alloc pending_cell w in
      let r := RCont (λ v, CallAsync (callback v) (λ q, Ret (VPromise q))) d in
      exec (k d) self (subscribe p r w1)
  | CallAsync body k =>
      let '(q, w1) := alloc pending_cell w in
      exec (k q) self (exec body (Some q) w1)
  | PromiseResolve v k =>
      let '(q, w1) :=
        alloc {| state := Fulfilled v; reactions := []; elements := [] |} w in
      exec (k q) self w1
  | PromiseAll ps k =>
      let '(a, w1) :=
        alloc {| state := match ps with
                          | [] => Fulfilled (VArray [])
                          | _ => Pending
                          end;
                 reactions := [];
                 elements := replicate (length ps) None |} w in
      exec (k a) self (subscribe_all ps 0 a w1)
  | Call r k =>
      let '(x, w1) := alloc pending_cell w in
      exec (k x) self (upd_store (emit (Request r x)) w1)
  | SetInterval handler ms k =>
      let i := length (timers w) in
      exec (k i) self
        (set_timers (timers w ++ [{| handler := handler i; period := ms;
                                     active := true |}]) w)
  | ClearInterval i k =>
      exec k self
        (set_timers (alter (λ t, {| handler := handler t; period := period t;
                                    active := false |}) i (timers w)) w)
  end.

Definition all_values (es : list (option value)) : option (list value) :=
  mapM (λ e : option value, e) es.

Definition run_job (j : job) (w : World) : World :=
  match j with
  | JFulfil (RCont k self) v => exec (k v) (Some self) w
  | JReject (RCont _ self) e => settle self (Rejected e) w
  | JFulfil (RAllElement a i) v =>
      let c := promise w a in
      let es := <[i := Some v]> (elements c) in
      let w1 := set_heap (<[a := {| state := state c; reactions := reactions c;
                                    elements := es |}]> (heap w)) w in
      match all_values es with
      | Some vs => settle a (Fulfilled (VArray vs)) w1
      | None => w1
      end
  | JReject (RAllElement a _) e => settle a (Rejected e) w
  end.

(** Run microtasks until the queue is empty; [fuel] bounds their number. *)
Fixpoint drain (fuel : nat) (w : World) : World :=
  match fuel with
  | O => w
  | S fuel' =>
      match microtasks w with
      | [] => w
      | j :: q => drain fuel' (run_job j (set_microtasks q w))
      end
  end.

Definition quiescent (w : World) : Prop := microtasks w = [].

Declare Scope prog_scope.
Delimit Scope prog_scope with P.
Bind Scope prog_scope with Prog.

Notation "x ← op ; k" := (op (λ x, k))
  (at level 20, op at level 100, k at level 200, only parsing) : prog_scope.
Notation "f ;; k" := (Put f k)
  (at level 100, k at level 200, only parsing, right associativity) : prog_scope.

Definition TypeError : value := VError None.

(** ** NodeTarget: attach and detach *)

(** [_doAttach()], lines 281-295.  The two handlers subscribed at the end
    only close the connection later; their subscription is recorded. *)
Definition _doAttach (this : ref) : Prog :=
  (upd_target this (set_waitingForDebugger false) ;;
   upd_target this (set_attached true) ;;
   s ← Get;
   x ← Call (AttachToTarget (_cdp (target s this)) (_targetId (target s this)));
   _ ← Await (VPromise x);
   s ← Get;
   emit (RuntimeOn (_cdp (target s this)) "executionContextCreated") ;;
   emit (RuntimeOn (_cdp (target s this)) "executionContextDestroyed") ;;
   Ret (VCdpApi (_cdp (target s this))))%P.

(** [attach()], lines 272-279. *)
Definition attach (this : ref) : Prog :=
  (s ← Get;
   d ← Then (_serialize (target s this))
         (λ _, s ← Get;
               if _attached (target s this) then Ret VUndefined
               else r ← CallAsync (_doAttach this); Ret (VPromise r));
   upd_target this (set_serialize d) ;;
   s ← Get;
   Ret (VPromise (_serialize (target s this))))%P.

(** [_doDetach()], lines 309-312. *)
Definition _doDetach (this : ref) : Prog :=
  (s ← Get;
   x ← Call (DetachFromTarget (_cdp (target s this)) (_targetId (target s this)));
   _ ← Await (VPromise x);
   upd_target this (set_attached false) ;;
   Ret VUndefined)%P.

(** [detach()], lines 301-307.  The callback calls [_doDetach()] and drops
    the promise it returns; the method itself returns nothing. *)
Definition detach (this : ref) : Prog :=
  (s ← Get;
   d ← Then (_serialize (target s this))
         (λ _, s ← Get;
               if negb (_attached (target s this)) then Ret VUndefined
               else _ ← CallAsync (_doDetach this); Ret VUndefined);
   upd_target this (set_serialize d) ;;
   Ret VUndefined)%P.

(** ** The process watcher *)

(** [onProcessExit(pid, callback)], lines 369-380.  [probe] is the operating
    system at the time of the tick: what [process.kill(pid, 0)] does. *)
Definition onProcessExit (pid : value) (callback : Prog) (k : Prog) : Prog :=
  (_ ← SetInterval
         (λ interval probe,
            match probe pid with
            | KillOk => Ret VUndefined
            | KillThrows code =>
                if bool_decide (code = Some "EPERM") then Ret VUndefined
                else ClearInterval interval callback
            end)
         1000;
   k)%P.

(** ** NodeLauncher: the asynchronous methods *)

(** The constructor, lines 43-51; the store holds the fields. *)
Definition NodeLauncher_new (rootPath : option string) (blocker : pid)
  : NodeLauncher :=
  {| _rootPath := rootPath; _server := None; _terminal := None;
     _connections := []; _launchParams := None; _pipe := None;
     _isRestarting := false; _targets := ∅; _launchBlocker := blocker;
     _breakpointsPredictor :=
       match rootPath with
       | Some r => negb (String.eqb r "")
       | None => false
       end |}.

(** [vscode.window.createTerminal(options)]. *)
Definition createTerminal (name : string) (dir : option string)
    (e : gmap string (option string)) (s : Store) : Store :=
  let t := next_terminal s in
  upd_launcher (set_terminal (Some t))
    (emit (CreateTerminal t name dir e) (set_next_terminal (S t) s)).

(** The callback [_relaunch] hands to [onProcessExit], lines 75-80. *)
Definition on_exit : Prog :=
  (s ← Get;
   if negb (_isRestarting (launcher s))
   then _stopServer ;; emit FireTerminated ;; Ret VUndefined
   else Ret VUndefined)%P.

(** [_relaunch()], lines 63-84. *)
Definition _relaunch (h : Host) : Prog :=
  (_killRuntime ;;
   s ← Get;
   match _launchParams (launcher s), _buildEnv h (launcher s) with
   | Some lp, Some e =>
       createTerminal (or_else (command lp) "Debugger terminal")
         (or_else_opt (cwd lp) (_rootPath (launcher s))) e ;;
       let commandLine := command lp in
       s ← Get;
       match _terminal (launcher s) with
       | None => Throw TypeError
       | Some t =>
           x ← Call (ProcessId t);
           pid ← Await (VPromise x);
           s ← Get;
           match _terminal (launcher s) with
           | None => Throw TypeError
           | Some t =>
               emit (TerminalShow t) ;;
               onProcessExit pid on_exit
                 (if negb (String.eqb (or_else commandLine "") "")
                  then
                    s ← Get;
                    match _terminal (launcher s) with
                    | None => Throw TypeError
                    | Some t =>
                        emit (TerminalSendText t (or_else commandLine "")) ;;
                        Ret VUndefined
                    end
                  else Ret VUndefined)
           end
       end
   | _, _ => Throw TypeError
   end)%P.

(** [launch(params)], lines 53-61. *)
Definition launch (h : Host) (params : LaunchParams) : Prog :=
  (if negb (bool_decide (is_Some (command params))) then Ret VUndefined
   else
     s ← Get;
     _ ← Await (VPromise (_launchBlocker (launcher s)));
     upd_launcher (set_launchParams (Some params)) ;;
     _startServer h ;;
     _ ← Await VUndefined;
     r ← CallAsync (_relaunch h);
     _ ← Await (VPromise r);
     Ret VUndefined)%P.

(** [terminate()], lines 86-89, and [disconnect()], lines 91-94. *)
Definition terminate : Prog :=
  (_killRuntime ;; _stopServer ;; _ ← Await VUndefined; Ret VUndefined)%P.

Definition disconnect : Prog :=
  (_killRuntime ;; _stopServer ;; _ ← Await VUndefined; Ret VUndefined)%P.

(** [restart()], lines 103-111. *)
Definition restart (h : Host) : Prog :=
  (upd_launcher (set_isRestarting true) ;;
   _killRuntime ;;
   _stopServer ;;
   _startServer h ;;
   _ ← Await VUndefined;
   r ← CallAsync (_relaunch h);
   _ ← Await (VPromise r);
   upd_launcher (set_isRestarting false) ;;
   Ret VUndefined)%P.

(** [predictBreakpoints(params)], lines 159-165: a plain function that
    returns a promise, handed to [k]. *)
Definition predictBreakpoints (params : nat) (k : pid → Prog) : Prog :=
  (s ← Get;
   if negb (_breakpointsPredictor (launcher s)) then PromiseResolve VUndefined k
   else
     promise ← Call (OnSetBreakpoints params);
     b ← PromiseAll [_launchBlocker (launcher s); promise];
     upd_launcher (set_launchBlocker b) ;;
     k promise)%P.

(** [_startSession(socket)], lines 129-136. *)
Definition _startSession (h : Host) (connection : nat) : Prog :=
  (upd_launcher (λ l, set_connections (_connections l ++ [connection]) l) ;;
   s ← Get;
   let cdp := next_session s in
   set_next_session (S cdp) ;;
   x ← Call (TargetCreated cdp);
   ev ← Await (VPromise x);
   match ev with
   | VTargetCreated targetInfo =>
       serialize ← PromiseResolve VUndefined;
       (λ s, (NodeTarget_new h serialize connection cdp targetInfo s).2) ;;
       emit FireTargetListChanged ;;
       Ret VUndefined
   | _ => Throw TypeError
   end)%P.

(** ** The environment *)

(** The client calls an [async] method: its body runs up to the first
    suspension and the caller holds the promise. *)
Definition call (body : Prog) (w : World) : pid * World :=
  let '(p, w1) := alloc pending_cell w in
  (p, exec body (Some p) w1).

(** A timer fires: the handler of an active interval runs. *)
Definition tick (i : nat) (probe : value → kill_result) (w : World) : World :=
  match timers w !! i with
  | Some t => if active t then exec (handler t probe) None w else w
  | None => w
  end.

(** A connection drops: its [onDisconnected] handlers run. *)
Definition connection_disconnected (c : nat) (w : World) : World :=
  upd_store
    (λ s, foldl (λ s '(c', t), if Nat.eqb c' c then _disconnected t s else s)
            s (onDisconnected s)) w.

(** The methods a client of the launcher and of its targets calls. *)
Inductive method : Type :=
| Launch (params : LaunchParams)
| Terminate
| Disconnect
| Restart
| Dispose
| PredictBreakpoints (params : nat)
| Attach (this : ref)
| Detach (this : ref)
| Stop (this : ref) (result : kill_result).

Definition invoke (h : Host) (m : method) (w : World) : World :=
  match m with
  | Launch params => (call (launch h params) w).2
  | Terminate => (call terminate w).2
  | Disconnect => (call disconnect w).2
  | Restart => (call (restart h) w).2
  | Dispose => upd_store dispose w
  | PredictBreakpoints params =>
      exec (predictBreakpoints params (λ _, Ret VUndefined)) None w
  | Attach this => (call (attach this) w).2
  | Detach this => (call (detach this) w).2
  | Stop this result => upd_store (stop result this) w
  end.

Inductive event : Type :=
| Settle (p : pid) (st : pstate)       (* a collaborator answers *)
| Tick (i : nat) (probe : value → kill_result)
| Invoke (m : method)                  (* the client calls a method *)
| Accept (connection : nat)            (* the server accepts a socket *)
| Disconnected (connection : nat).

(** One turn of the event loop: the event's handler, then the microtasks. *)
Definition turn (h : Host) (fuel : nat) (ev : event) (w : World) : World :=
  drain fuel
    match ev with
    | Settle p st => settle p st w
    | Tick i probe => tick i probe w
    | Invoke m => invoke h m w
    | Accept c => (call (_startSession h c) w).2
    | Disconnected c => connection_disconnected c w
    end.

Definition turns (h : Host) (fuel : nat) (evs : list event) (w : World) : World :=
  foldl (λ w ev, turn h fuel ev w) w evs.

(** A fresh process: no objects, [counter = 0], one launcher. *)
Definition empty_store (l : NodeLauncher) : Store :=
  {| counter := 0; launcher := l; objs := ∅; next_ref := 0;
     next_terminal := 0; next_session := 0; onDisconnected := []; trace := [] |}.

Definition boot (rootPath : option string) : World :=
  {| store := empty_store (NodeLauncher_new rootPath 0);
     heap := {[ 0 := {| state := Fulfilled VUndefined; reactions := [];
                        elements := [] |} ]};
     next_pid := 1; microtasks := []; timers := [] |}.

Definition status (w : World) (p : pid) : pstate := state (promise w p).

(** * Scenario data *)

Definition without_opener (i : TargetInfo) : TargetInfo :=
  {| targetId := targetId i; title := title i; openerId := None; type_ := type_ i |}.

(** [path.join] and [path.basename] on the example host, for the arguments
    the examples give them: a normalised directory and a file name, which
    [path.join] puts together with one separator, and a path that does not
    end with a separator, of which [path.basename] is what follows the last
    separator. *)
Definition join_under (dir name : string) : string := dir +:+ "/" +:+ name.

Fixpoint after_last_slash (acc s : string) : string :=
  match s with
  | EmptyString => acc
  | String c s' =>
      if Ascii.eqb c "/" then after_last_slash s' s' else after_last_slash acc s'
  end.

Definition linux : Host :=
  {| platform := "linux"; host_pid := 4242; process_env := {[ "PATH" := "/bin" ]};
     tmpdir := "/tmp"; dirname := "/ext/out";
     path_join := join_under;
     path_basename := λ p, after_last_slash p p |}.

Definition created (i : string) (o : option string) : TargetInfo :=
  {| targetId := i; title := "/ws/app.js"; openerId := o;
     type_ := "waitingForDebugger" |}.

Definition idle : Store := empty_store (NodeLauncher_new (Some "/ws") 0).

(** Root [R] (0) with child [T] (1), itself with children [B] (2) and
    [C] (3), built by the constructor. *)
Definition family : Store :=
  let s1 := (NodeTarget_new linux 1 10 20 (created "R" None) idle).2 in
  let s2 := (NodeTarget_new linux 2 11 21 (created "T" (Some "R")) s1).2 in
  let s3 := (NodeTarget_new linux 3 12 22 (created "B" (Some "T")) s2).2 in
  (NodeTarget_new linux 4 13 23 (created "C" (Some "T")) s3).2.



(** Launch parameters that supply [NODE_OPTIONS], and a launcher that has
    stored them. *)
Definition with_node_options : LaunchParams :=
  {| command := Some "node app.js"; cwd := None;
     env := Some {[ "NODE_OPTIONS" := "--inspect-brk"; "PATH" := "/opt/bin" ]};
     attachToNode := None |}.

Definition launched_with_node_options : NodeLauncher :=
  set_pipe (Some "/tmp/node-cdp.4242-1.sock")
    (set_launchParams (Some with_node_options) (NodeLauncher_new (Some "/ws") 0)).

(** The world once [onProcessExit(pid, callback)] has returned. *)
Definition watch (pid : value) (callback : Prog) (w : World) : World :=
  exec (onProcessExit pid callback (Ret VUndefined)) None w.

Definition benign (pid : value) (probe : value → kill_result) : Prop :=
  probe pid = KillOk ∨ probe pid = KillThrows (Some "EPERM").

Definition ticks (i : nat) (probes : list (value → kill_result)) (w : World)
  : World :=
  foldl (λ w probe, tick i probe w) w probes.

Definition watcher_active (w : World) (i : nat) : bool :=
  default false (active <$> timers w !! i).

(** [clearInterval(i)]. *)
Definition cancel (i : nat) (w : World) : World :=
  exec (ClearInterval i (Ret VUndefined)) None w.

(** The requests made so far, oldest first, with the promise of each. *)
Definition requests (s : Store) : list (request * pid) :=
  omap (λ e, match e with Request r x => Some (r, x) | _ => None end) (trace s).

Definition is_attach (r : request * pid) : bool :=
  match r.1 with AttachToTarget _ _ => true | _ => false end.

Definition is_detach (r : request * pid) : bool :=
  match r.1 with DetachFromTarget _ _ => true | _ => false end.


Definition is_terminated (e : effect) : bool :=
  match e with FireTerminated => true | _ => false end.

(** How many times the "terminated" notification has fired. *)
Definition fired_terminated (s : Store) : nat :=
  length (filter is_terminated (trace s)).

Definition is_fulfilled (st : pstate) : bool :=
  match st with Fulfilled _ => true | _ => false end.

Definition is_settled (st : pstate) : bool :=
  match st with Pending => false | _ => true end.

(** A launcher on which one connection has reported a target: object 0,
    created waiting for the debugger, detached, its queue idle. *)
Definition session : World :=
  turns linux 64
    [Accept 7; Settle 2 (Fulfilled (VTargetCreated (created "100" None)))]
    (boot (Some "/ws")).

Definition node_app : LaunchParams :=
  {| command := Some "node app.js"; cwd := None; env := None;
     attachToNode := Some "always" |}.

Definition no_command : LaunchParams :=
  {| command := None; cwd := None; env := None; attachToNode := None |}.

(** The operating system once process [p] is gone. *)
Definition gone (p : N) (v : value) : kill_result :=
  match v with
  | VNum q => if (q =? p)%N then KillThrows (Some "ESRCH") else KillOk
  | _ => KillOk
  end.

(** ** The claims that fail, as the specification words them *)

(** C1 in the specification's words: when the remote attach call of an
    [attach()] fails, the caller sees the failure, [attached] is still false
    and [waitingForDebugger] is what it was. *)
Definition attach_failure_leaves_state (h : Host) (w : World) (this : ref)
    (e : value) : Prop :=
  let p := next_pid w in
  let w1 := turn h 64 (Invoke (Attach this)) w in
  ∀ r x, last (requests (store w1)) = Some (r, x) →
    let w2 := turn h 64 (Settle x (Rejected e)) w1 in
    status w2 p = Rejected e
    ∧ _attached (target (store w2) this) = false
    ∧ _waitingForDebugger (target (store w2) this)
      = _waitingForDebugger (target (store w) this).

(** C6 in the specification's words: two [attach()] calls made before the
    remote call answers issue one remote call and resolve to the same
    value. *)
Definition concurrent_attach_same_value (h : Host) (w : World) (this : ref)
    (answer : value) : Prop :=
  let p1 := next_pid w in
  let w1 := turn h 64 (Invoke (Attach this)) w in
  let p2 := next_pid w1 in
  let w2 := turn h 64 (Invoke (Attach this)) w1 in
  ∃ r x, filter is_attach (requests (store w2))
         = filter is_attach (requests (store w)) ++ [(r, x)]
  ∧ let w3 := turn h 64 (Settle x (Fulfilled answer)) w2 in
    is_fulfilled (status w3 p1) = true ∧ status w3 p1 = status w3 p2.


(** ** The launch blocker as a chain of fan-ins *)






(** [w'] is a later state of the heap of [w]: promises are only added, and
    a settled promise keeps its state. *)
Definition later (w w' : World) : Prop :=
  next_pid w ≤ next_pid w'
  ∧ ∀ p, p < next_pid w → is_settled (status w p) = true →
         status w' p = status w p.











(** No reaction is left on a settled promise. *)
Definition tidy (w : World) : Prop :=
  ∀ p, is_settled (status w p) = true → reactions (promise w p) = [].

(** ** The launch behind its blocker *)

(** [launch(params)] from line 58 on, once [await this._launchBlocker] has
    answered. *)
Definition launch_after_blocker (h : Host) (params : LaunchParams)
  : value → Prog :=
  λ _, (upd_launcher (set_launchParams (Some params)) ;;
        _startServer h ;;
        _ ← Await VUndefined;
        r ← CallAsync (_relaunch h);
        _ ← Await (VPromise r);
        Ret VUndefined)%P.










(** A launcher with one prediction requested and not yet answered. *)
Abbreviation predicted :=
  (turn linux 64 (Invoke (PredictBreakpoints 1)) (boot (Some "/ws")))
  (only parsing).

(** Then [launch] with a command, a second prediction, and the answer to the
    first prediction only. *)
Abbreviation launched_between :=
  (turn linux 64 (Settle 1 (Fulfilled VUndefined))
     (turn linux 64 (Invoke (PredictBreakpoints 2))
        (turn linux 64 (Invoke (Launch node_app)) predicted)))
  (only parsing).

(** Then the process id of the launched terminal arrives. *)
Abbreviation launch_completed :=
  (turn linux 64 (Settle 7 (Fulfilled (VNum 500))) launched_between)
  (only parsing).

(** ** Children visited by [forEach] while the callback removes them *)

(** The elements at positions 0, 2, 4, ... and at positions 1, 3, 5, ... *)
Fixpoint evens (l : list ref) : list ref :=
  match l with
  | [] => []
  | x :: l' => x :: match l' with
                    | [] => []
                    | _ :: l'' => evens l''
                    end
  end.

Definition odds (l : list ref) : list ref :=
  match l with
  | [] => []
  | _ :: l' => evens l'
  end.

(** The store [s'] in the course of [this._children.forEach(child =>
    child._setParent(this._parent))] on target [T] of [s]: the children
    [mv] have moved under [T]'s parent, [kept] have been stepped over and
    [rest] are still ahead. *)
Record visiting (s : Store) (T : ref) (oT : NodeTarget)
    (kept rest mv : list ref) (s' : Store) : Prop := {
  vis_frame : s' = set_objs (objs s') s;
  vis_all : mv ++ kept ++ rest ≡ₚ _children oT;
  vis_this : objs s' !! T = Some (set_children (kept ++ rest) oT);
  vis_moved : ∀ c, c ∈ mv →
    ∃ oc, objs s !! c = Some oc ∧ objs s' !! c = Some (set_parent (_parent oT) oc);
  vis_ahead : ∀ c, c ∈ kept ++ rest → objs s' !! c = objs s !! c;
  vis_parent : ∀ p, _parent oT = Some p →
    ∃ op, objs s !! p = Some op
          ∧ objs s' !! p = Some (set_children (_children op ++ mv) op);
  vis_others : ∀ r, r ≠ T → r ∉ _children oT → _parent oT ≠ Some r →
    objs s' !! r = objs s !! r
}.

(** ** The second half of [_relaunch()] *)

(** [_relaunch()] from line 73 on, once [await this._terminal.processId]
    has answered with [pid]; [commandLine] was read at line 71. *)
Definition relaunch_after_pid (commandLine : option string) (pid : value) : Prog :=
  (s ← Get;
   match _terminal (launcher s) with
   | None => Throw TypeError
   | Some t =>
       emit (TerminalShow t) ;;
       onProcessExit pid on_exit
         (if negb (String.eqb (or_else commandLine "") "")
          then
            s ← Get;
            match _terminal (launcher s) with
            | None => Throw TypeError
            | Some t =>
                emit (TerminalSendText t (or_else commandLine "")) ;;
                Ret VUndefined
            end
          else Ret VUndefined)
   end)%P.

(** The interval handler [onProcessExit(pid, callback)] registers as timer
    [interval]. *)
Definition exit_probe (pid : value) (callback : Prog) (interval : nat)
    (probe : value → kill_result) : Prog :=
  match probe pid with
  | KillOk => Ret VUndefined
  | KillThrows code =>
      if bool_decide (code = Some "EPERM") then Ret VUndefined
      else ClearInterval interval callback
  end.

(** ** Script and source URLs *)

(** [scriptUrlToUrl(url)], lines 231-234.  [absolutePathToFileUrl] is the
    helper of [utils/urlUtils], which answers a string or [undefined].  A
    string is the sequence of its code units, so that [url[i]] is
    [String.get i url]. *)
Definition scriptUrlToUrl (h : Host)
    (absolutePathToFileUrl : string → option string) (url : string) : string :=
  let isPath :=
    bool_decide (String.get 0 url = Some "/"%char)
    || (String.eqb (platform h) "win32"
        && bool_decide (String.get 1 url = Some ":"%char)
        && bool_decide (String.get 2 url = Some "\"%char)) in
  if isPath then or_else (absolutePathToFileUrl url) url else url.

(** [NodeSourcePathResolver.rewriteSourceUrl(sourceUrl)], lines 338-343;
    [isValidUrl] and [absolutePathToFileUrl] are the helpers of
    [utils/urlUtils]. *)
Definition rewriteSourceUrl (isValidUrl : string → bool)
    (absolutePathToFileUrl : string → option string)
    (rootPath : option string) (sourceUrl : string) : string :=
  match rootPath with
  | Some r =>
      if negb (String.eqb r "") && String.prefix r sourceUrl
         && negb (isValidUrl sourceUrl)
      then or_else (absolutePathToFileUrl sourceUrl) sourceUrl
      else sourceUrl
  | None => sourceUrl
  end.

(** The helpers, for the examples: a file URL for every path, and the URLs
    with that scheme. *)
Definition file_url (p : string) : option string := Some ("file://" +:+ p).
Definition is_file_url (u : string) : bool := String.prefix "file://" u.

(** ** Scenario data for the examples *)

(** A launcher with root [R] only. *)
Definition root_only : Store :=
  (NodeTarget_new linux 1 10 20 (created "R" None) idle).2.

(** [session] with its target attached. *)
Definition attached_session : World :=
  turn linux 64 (Settle 8 (Fulfilled VUndefined))
    (turn linux 64 (Invoke (Attach 0)) session).

(** A launcher whose one prediction has failed. *)
Abbreviation failed_prediction :=
  (turn linux 64 (Settle 1 (Rejected (VError None))) predicted) (only parsing).

(** A launcher launched with [node_app], the process id arrived. *)
Abbreviation launched :=
  (turn linux 64 (Settle 3 (Fulfilled (VNum 500)))
     (turn linux 64 (Invoke (Launch node_app)) (boot (Some "/ws"))))
  (only parsing).
(** * Theorems *)

Section target_tree.

Lemma target_upd_target_eq s r f :
  target (upd_target r f s) r = match objs s !! r with
                                | Some o => f o
                                | None => no_target
                                end.
Proof.
  unfold target, upd_target. simpl. rewrite lookup_alter_eq.
  by destruct (objs s !! r).
Qed.

Lemma objs_upd_target_ne s r r' f :
  r ≠ r' → objs (upd_target r f s) !! r' = objs s !! r'.
Proof. intros. unfold upd_target. simpl. by rewrite lookup_alter_ne. Qed.

Lemma _setParent_orphan s this o parent :
  objs s !! this = Some o → _parent o = None →
  _setParent this parent s
  = match parent with
    | Some p =>
        upd_target p (λ o, set_children (_children o ++ [this]) o)
          (upd_target this (set_parent parent) s)
    | None => upd_target this (set_parent parent) s
    end.
Proof.
  intros Ho Hp. unfold _setParent, target. rewrite Ho. simpl. by rewrite Hp.
Qed.

(** C10.  A target whose opener identifier names no target of the
    launcher's map is constructed as a root: it has no parent, [hasParent]
    is false, every other object is left as it was (so no target gains a
    child), and the store is the one obtained when the opener is absent. *)
Theorem unknown_opener_is_root (h : Host) (serialize : pid)
    (connection cdp : nat) (targetInfo : TargetInfo) (opener : string)
    (s : Store) :
  openerId targetInfo = Some opener →
  _targets (launcher s) !! opener = None →
  let this := (NodeTarget_new h serialize connection cdp targetInfo s).1 in
  let s' := (NodeTarget_new h serialize connection cdp targetInfo s).2 in
  Target.parent s' this = None
  ∧ Target.hasParent s' this = false
  ∧ (∀ r, r ≠ this → objs s' !! r = objs s !! r)
  ∧ NodeTarget_new h serialize connection cdp targetInfo s
    = NodeTarget_new h serialize connection cdp (without_opener targetInfo) s.
Proof.
  intros Hop Hnone.
  assert (NodeTarget_new h serialize connection cdp targetInfo s
          = NodeTarget_new h serialize connection cdp (without_opener targetInfo) s)
    as Heq.
  { unfold NodeTarget_new, without_opener. rewrite Hop.
    cbn [openerId targetId title type_ mbind option_bind].
    cbn [launcher set_next_ref set_objs]. by rewrite Hnone. }
  split_and!; [| | |exact Heq]; rewrite Heq; unfold NodeTarget_new;
    cbn [openerId without_opener mbind option_bind fst snd];
    erewrite _setParent_orphan by (simpl; first [apply lookup_insert_eq | done]).
  - unfold Target.parent, target. simpl.
    by rewrite lookup_alter_eq, lookup_insert_eq.
  - unfold Target.hasParent, target. simpl.
    by rewrite lookup_alter_eq, lookup_insert_eq.
  - intros r Hr. simpl. by rewrite lookup_alter_ne, lookup_insert_ne.
Qed.


(** C3, at a target with two children.  [T] has parent [R] and children
    [B] and [C].  When [T] disconnects, [B] moves under [R] and [T] leaves
    the launcher's map, but [C] is never visited: it keeps [T] as parent
    and stays in [T]'s child list, and [R] does not receive it. *)
Theorem disconnected_skips_second_child :
  let s' := _disconnected 1 family in
  Target.children family 1 = [2; 3]
  ∧ Target.parent family 1 = Some 0
  ∧ Target.parent s' 2 = Some 0
  ∧ Target.parent s' 3 = Some 1
  ∧ Target.children s' 0 = [2]
  ∧ Target.children s' 1 = [3]
  ∧ Target.parent s' 1 = None
  ∧ _targets (launcher s') !! "T" = None.
Proof. vm_compute. repeat split. Qed.

End target_tree.
Section endpoints.









End endpoints.

Section environment.

(** Every key of the environment [_buildEnv] returns. *)
Lemma _buildEnv_lookup (h : Host) (l : NodeLauncher) (lp : LaunchParams) :
  _launchParams l = Some lp →
  ∃ e, _buildEnv h l = Some e
  ∧ e !! "NODE_INSPECTOR_IPC" = Some (_pipe l)
  ∧ e !! "NODE_INSPECTOR_WAIT_FOR_DEBUGGER"
    = Some (Some (or_else (attachToNode lp) "never"))
  ∧ e !! "NODE_OPTIONS"
    = Some (Some (or_else (process_env h !! "NODE_OPTIONS") ""
                    +:+ " --require " +:+ path_join h (dirname h) "bootloader.js"))
  ∧ e !! "ELECTRON_RUN_AS_NODE" = None
  ∧ ∀ k, k ≠ "NODE_INSPECTOR_IPC" → k ≠ "NODE_INSPECTOR_WAIT_FOR_DEBUGGER" →
         k ≠ "NODE_OPTIONS" → k ≠ "ELECTRON_RUN_AS_NODE" →
         e !! k = Some <$> match default ∅ (env lp) !! k with
                           | Some v => Some v
                           | None => process_env h !! k
                           end.
Proof.
  intros Hlp. unfold _buildEnv. rewrite Hlp. cbn [mbind option_bind].
  eexists. split; [reflexivity|]. split_and!.
  - rewrite lookup_delete_ne by done. rewrite !lookup_insert_ne by done.
    apply lookup_insert_eq.
  - rewrite lookup_delete_ne by done. rewrite lookup_insert_ne by done.
    apply lookup_insert_eq.
  - rewrite lookup_delete_ne by done. apply lookup_insert_eq.
  - apply lookup_delete_eq.
  - intros k ? ? ? ?.
    rewrite lookup_delete_ne, !lookup_insert_ne by done.
    rewrite lookup_fmap, lookup_union.
    destruct (default ∅ (env lp) !! k), (process_env h !! k); done.
Qed.

(** C8, at a launch that supplies [NODE_OPTIONS].  The launch environment
    sets [NODE_OPTIONS] and the inherited one does not: the spawned
    environment holds the preload flag alone, the supplied value is gone.
    For every other key the supplied value wins, as for [PATH] here. *)
Theorem buildEnv_drops_supplied_NODE_OPTIONS :
  env with_node_options = Some {[ "NODE_OPTIONS" := "--inspect-brk"; "PATH" := "/opt/bin" ]}
  ∧ process_env linux !! "NODE_OPTIONS" = None
  ∧ (_buildEnv linux launched_with_node_options ≫= (.!! "NODE_OPTIONS"))
    = Some (Some " --require /ext/out/bootloader.js")
  ∧ (_buildEnv linux launched_with_node_options ≫= (.!! "PATH"))
    = Some (Some "/opt/bin").
Proof. vm_compute. repeat split. Qed.

End environment.

Section watcher.

Lemma tick_cancelled i probe w :
  watcher_active w i = false → tick i probe w = w.
Proof.
  unfold watcher_active, tick. destruct (timers w !! i) as [t|]; simpl; [|done].
  by intros ->.
Qed.

Lemma ticks_app i (a b : list (value → kill_result)) w :
  ticks i (a ++ b)%list w = ticks i b (ticks i a w).
Proof. unfold ticks. apply foldl_app. Qed.

Lemma ticks_cancelled i probes w :
  watcher_active w i = false → ticks i probes w = w.
Proof.
  intros H. induction probes as [|p probes IH]; [done|].
  unfold ticks in *. simpl. by rewrite tick_cancelled.
Qed.

Lemma watch_timers pid callback w :
  timers (watch pid callback w)
  = (timers w ++ [{| handler := λ probe,
                      match probe pid with
                      | KillOk => Ret VUndefined
                      | KillThrows code =>
                          if bool_decide (code = Some "EPERM") then Ret VUndefined
                          else ClearInterval (length (timers w)) callback
                      end;
                    period := 1000; active := true |}])%list.
Proof. reflexivity. Qed.

Lemma tick_benign pid callback w probe :
  benign pid probe →
  tick (length (timers w)) probe (watch pid callback w) = watch pid callback w.
Proof.
  intros Hb. unfold tick. rewrite watch_timers.
  rewrite lookup_app_r, Nat.sub_diag by done. simpl.
  destruct Hb as [-> | ->]; done.
Qed.

Lemma ticks_benign pid callback w probes :
  Forall (benign pid) probes →
  ticks (length (timers w)) probes (watch pid callback w) = watch pid callback w.
Proof.
  induction 1 as [|p probes Hp _ IH]; [done|].
  unfold ticks in *. simpl. by rewrite tick_benign.
Qed.

Lemma tick_fatal pid callback w probe :
  ¬ benign pid probe →
  tick (length (timers w)) probe (watch pid callback w)
  = exec callback None (cancel (length (timers w)) (watch pid callback w)).
Proof.
  intros Hb. unfold tick. rewrite watch_timers.
  rewrite lookup_app_r, Nat.sub_diag by done. simpl.
  unfold benign in Hb. destruct (probe pid) as [|code]; [tauto|].
  rewrite bool_decide_eq_false_2; [done|]. intros ->. tauto.
Qed.

(** C9.  After [onProcessExit(pid, callback)] has registered its interval
    (period: 1000 ms), a probe that succeeds or fails with [EPERM] changes
    nothing, whatever the number of ticks; the first probe that fails
    otherwise cancels the interval and runs the callback; after that no
    tick does anything.  So a callback that updates the store by [f] has
    run exactly once at the end of any sequence of ticks with a fatal probe
    in it. *)
Theorem onProcessExit_probe_tolerance (w : World) (pid : value) (callback : Prog) :
  let i := length (timers w) in
  let w0 := watch pid callback w in
  (period <$> timers w0 !! i) = Some 1000%N
  ∧ watcher_active w0 i = true
  ∧ (∀ probes, Forall (benign pid) probes → ticks i probes w0 = w0)
  ∧ (∀ pre probe, Forall (benign pid) pre → ¬ benign pid probe →
       ticks i (pre ++ [probe])%list w0 = exec callback None (cancel i w0))
  ∧ (∀ w' probes, watcher_active w' i = false → ticks i probes w' = w')
  ∧ (∀ f pre probe post,
       callback = Put f (Ret VUndefined) →
       Forall (benign pid) pre → ¬ benign pid probe →
       store (ticks i (pre ++ probe :: post)%list w0) = f (store w0)
       ∧ watcher_active (ticks i (pre ++ probe :: post)%list w0) i = false).
Proof.
  intros i w0. subst i w0.
  assert (∀ pre probe, Forall (benign pid) pre → ¬ benign pid probe →
            ticks (length (timers w)) (pre ++ [probe])%list (watch pid callback w)
            = exec callback None
                (cancel (length (timers w)) (watch pid callback w))) as Hfatal.
  { intros pre probe Hpre Hprobe. rewrite ticks_app, ticks_benign by done.
    by apply tick_fatal. }
  split_and!.
  - rewrite watch_timers, lookup_app_r, Nat.sub_diag by done. done.
  - unfold watcher_active.
    rewrite watch_timers, lookup_app_r, Nat.sub_diag by done. done.
  - intros probes. apply ticks_benign.
  - exact Hfatal.
  - intros w' probes. apply ticks_cancelled.
  - intros f pre probe post -> Hpre Hprobe.
    replace (pre ++ probe :: post)%list with ((pre ++ [probe]) ++ post)%list
      by by rewrite <- app_assoc.
    rewrite ticks_app, Hfatal by done.
    assert (watcher_active
              (exec (Put f (Ret VUndefined)) None
                 (cancel (length (timers w))
                    (watch pid (Put f (Ret VUndefined)) w)))
              (length (timers w)) = false) as Hoff.
    { unfold watcher_active, cancel. simpl.
      rewrite list_lookup_alter, decide_True, lookup_app_r, Nat.sub_diag by done.
      done. }
    rewrite ticks_cancelled by done. split; [done | exact Hoff].
Qed.

End watcher.

Section scenarios.

(** C1 fails.  On [session] the failed remote call leaves [attached] true
    (and [waitingForDebugger], true before, false). *)
Lemma attach_failure_changes_state :
  ¬ attach_failure_leaves_state linux session 0 (VError (Some "ECONNRESET")).
Proof.
  intros H. specialize (H (AttachToTarget 0 "100") 8).
  vm_compute in H. destruct (H eq_refl) as (_ & Hattached & _). discriminate.
Qed.

(** C6 fails.  On [session] the first call resolves to the [Cdp.Api] handle
    and the second to [undefined]. *)
Lemma concurrent_attach_values_differ :
  ¬ concurrent_attach_same_value linux session 0 VUndefined.
Proof.
  intros (r & x & Hreq & _ & Hsame). vm_compute in Hreq.
  injection Hreq as <- <-. vm_compute in Hsame. discriminate.
Qed.


(** C2, at an attached target whose client calls [detach()] twice.  Both
    callbacks have run and both remote detach calls are in flight at once:
    the second began before the first completed.  And an [attach()] queued
    behind one [detach()] runs while that detach is still in flight, finds
    [attached] true and resolves without a remote call. *)
Theorem detach_does_not_hold_the_queue :
  let attached :=
    turns linux 64 [Invoke (Attach 0); Settle 8 (Fulfilled VUndefined)] session in
  let w := turns linux 64 [Invoke (Detach 0); Invoke (Detach 0)] attached in
  let w' := turns linux 64 [Invoke (Detach 0); Invoke (Attach 0)] attached in
  Target.canDetach (store attached) 0 = true
  ∧ filter is_detach (requests (store w))
    = [(DetachFromTarget 0 "100", 13); (DetachFromTarget 0 "100", 18)]
  ∧ status w 13 = Pending ∧ status w 18 = Pending
  ∧ microtasks w = []
  ∧ filter is_detach (requests (store w')) = [(DetachFromTarget 0 "100", 13)]
  ∧ status w' 13 = Pending
  ∧ status w' 14 = Fulfilled VUndefined
  ∧ length (filter is_attach (requests (store w'))) = 1.
Proof. vm_compute. repeat split. Qed.

(** C4, at a restart whose old process is seen dead after [restart()] has
    completed.  [launch] spawns process 500, [restart] kills it and spawns
    501; [restart()] is fulfilled and nothing has fired.  Then the watcher
    of process 500 ticks, finds it gone, sees [_isRestarting] false, closes
    the new server and fires "terminated". *)
Theorem restart_fires_terminated_afterwards :
  let launched :=
    turns linux 64 [Invoke (Launch node_app); Settle 3 (Fulfilled (VNum 500))]
      (boot (Some "/ws")) in
  let restarted :=
    turns linux 64 [Invoke Restart; Settle 6 (Fulfilled (VNum 501))] launched in
  let w := turn linux 64 (Tick 0 (gone 500)) restarted in
  status restarted 4 = Fulfilled VUndefined
  ∧ _isRestarting (launcher (store restarted)) = false
  ∧ _server (launcher (store restarted)) = Some "/tmp/node-cdp.4242-2.sock"
  ∧ fired_terminated (store restarted) = 0
  ∧ fired_terminated (store w) = 1
  ∧ _server (launcher (store w)) = None.
Proof. vm_compute. repeat split. Qed.

End scenarios.

(** ** Running the event loop on an arbitrary world *)

Section stepping.

Lemma drain_nil f w : microtasks w = [] → drain f w = w.
Proof. intros H. destruct f; simpl; [done|]. by rewrite H. Qed.

Lemma drain_cons f j q w :
  microtasks w = j :: q →
  drain (S f) w = drain f (run_job j (set_microtasks q w)).
Proof. intros H. simpl. by rewrite H. Qed.

Lemma subscribe_fulfilled q r w c v :
  heap w !! q = Some c → state c = Fulfilled v →
  subscribe q r w = enqueue [JFulfil r v] w.
Proof. intros H1 H2. unfold subscribe, promise. rewrite H1. simpl. by rewrite H2. Qed.

Lemma subscribe_rejected q r w c e :
  heap w !! q = Some c → state c = Rejected e →
  subscribe q r w = enqueue [JReject r e] w.
Proof. intros H1 H2. unfold subscribe, promise. rewrite H1. simpl. by rewrite H2. Qed.

Lemma subscribe_pending q r w c :
  heap w !! q = Some c → state c = Pending →
  subscribe q r w
  = set_heap (<[q := {| state := Pending; reactions := reactions c ++ [r];
                        elements := elements c |}]> (heap w)) w.
Proof. intros H1 H2. unfold subscribe, promise. rewrite H1. simpl. by rewrite H2. Qed.

Lemma settle_rejected p e w c :
  heap w !! p = Some c → state c = Pending →
  settle p (Rejected e) w
  = enqueue ((λ r, JReject r e) <$> reactions c)
      (set_heap (<[p := {| state := Rejected e; reactions := [];
                           elements := elements c |}]> (heap w)) w).
Proof. intros H1 H2. unfold settle, promise. rewrite H1. simpl. by rewrite H2. Qed.

Lemma settle_fulfilled p v w c :
  heap w !! p = Some c → state c = Pending →
  settle p (Fulfilled v) w
  = enqueue ((λ r, JFulfil r v) <$> reactions c)
      (set_heap (<[p := {| state := Fulfilled v; reactions := [];
                           elements := elements c |}]> (heap w)) w).
Proof. intros H1 H2. unfold settle, promise. rewrite H1. simpl. by rewrite H2. Qed.

Lemma target_lookup s r o : objs s !! r = Some o → target s r = o.
Proof. intros H. unfold target. by rewrite H. Qed.

Lemma status_lookup w p c : heap w !! p = Some c → status w p = state c.
Proof. intros H. unfold status, promise. by rewrite H. Qed.

End stepping.

Ltac world_cbn :=
  unfold turn, turns, invoke, call, attach, detach, _doAttach, _doDetach,
    upd_target, emit, enqueue, upd_store, set_heap, set_microtasks, set_objs,
    set_serialize, set_attached, set_waitingForDebugger, pending_cell;
  cbn [foldl exec run_job alloc resolve
       store heap next_pid microtasks timers state reactions elements
       fst snd fmap list_fmap app
       objs trace launcher counter next_ref
       next_terminal next_session onDisconnected
       _connection _cdp _parent _children _targetId _targetName _scriptName
       _serialize _attached _waitingForDebugger negb Nat.add].

Ltac heap_norm :=
  repeat first
    [ rewrite lookup_insert_eq
    | rewrite lookup_insert_ne by lia
    | rewrite lookup_alter_eq
    | rewrite lookup_alter_ne by lia ].

Ltac lookup_solver :=
  world_cbn; heap_norm;
  first [ eassumption | reflexivity
        | match goal with H : _ !! _ = Some _ |- _ => rewrite H; reflexivity end ].

(** One step: normalise, then resolve the innermost stuck operation. *)
Ltac step :=
  world_cbn;
  match goal with
  | |- context [target ?s ?r] =>
      erewrite (target_lookup s r) by lookup_solver
  | |- context [subscribe ?q ?r ?w] =>
      first [ erewrite (subscribe_fulfilled q r w) by lookup_solver
            | erewrite (subscribe_rejected q r w) by lookup_solver
            | erewrite (subscribe_pending q r w) by lookup_solver ]
  | |- context [settle ?p (Rejected ?e) ?w] =>
      erewrite (settle_rejected p e w) by lookup_solver
  | |- context [settle ?p (Fulfilled ?v) ?w] =>
      erewrite (settle_fulfilled p v w) by lookup_solver
  | |- context [drain (S ?f) ?w] =>
      first [ rewrite (drain_nil (S f) w) by (world_cbn; reflexivity)
            | erewrite (drain_cons f _ _ w) by (world_cbn; reflexivity) ]
  end.

Ltac requests_solve :=
  unfold requests; cbn [store trace]; rewrite ?omap_app; simpl;
  rewrite ?app_nil_r; reflexivity.

Ltac run_with H :=
  repeat first [step | progress world_cbn | progress rewrite H];
  try world_cbn.

Section attach.

(** C1, as the code has it.  On a detached target whose queue is idle, an
    [attach()] issues the remote call with [attached] already true and
    [waitingForDebugger] already false.  If the call fails, the caller's
    promise is rejected with that failure and the two flags stay as set;
    a further [attach()] is rejected with the same failure and issues no
    remote call. *)
Theorem attach_failure_marks_attached (h : Host) (w : World) (this : ref)
    (o : NodeTarget) (v e : value) :
  microtasks w = [] →
  objs (store w) !! this = Some o →
  _attached o = false →
  status w (_serialize o) = Fulfilled v →
  _serialize o < next_pid w →
  let p := next_pid w in
  let x := 4 + next_pid w in
  let w1 := turn h 64 (Invoke (Attach this)) w in
  let w2 := turn h 64 (Settle x (Rejected e)) w1 in
  let p' := next_pid w2 in
  let w3 := turn h 64 (Invoke (Attach this)) w2 in
  requests (store w1)
  = requests (store w) ++ [(AttachToTarget (_cdp o) (_targetId o), x)]
  ∧ status w1 p = Pending
  ∧ status w2 p = Rejected e
  ∧ _attached (target (store w2) this) = true
  ∧ _waitingForDebugger (target (store w2) this) = false
  ∧ status w3 p' = Rejected e
  ∧ requests (store w3) = requests (store w1)
  ∧ microtasks w3 = [].
Proof.
  intros Hq Ho Ha Hs Hlt.
  intros p x w1 w2 p' w3.
  destruct w as [s hp n q ts].
  cbn [microtasks store next_pid heap] in Hq, Ho, Hlt, p, x. subst q.
  unfold status, promise in Hs. cbn [heap] in Hs.
  destruct (hp !! _serialize o) as [[st rs es]|] eqn:Hc; cbn in Hs;
    [subst st|done].
  eassert (∀ P : World → Prop, P _ → P w1) as E1.
  { intros P HP. subst w1. run_with Ha. exact HP. }
  eassert (∀ P : World → Prop, P _ → P w2) as E2.
  { intros P HP. subst w2. pattern w1. apply E1. run_with Ha. exact HP. }
  eassert (∀ P : World → Prop, P _ → P w3) as E3.
  { intros P HP. subst w3. pattern w2. apply E2. run_with Ha. exact HP. }
  subst p p' x. clearbody w1 w2 w3.
  split_and!.
  - pattern w1. apply E1. requests_solve.
  - pattern w1. apply E1. erewrite status_lookup by lookup_solver. reflexivity.
  - pattern w2. apply E2. erewrite status_lookup by lookup_solver. reflexivity.
  - pattern w2. apply E2. erewrite target_lookup by lookup_solver. reflexivity.
  - pattern w2. apply E2. erewrite target_lookup by lookup_solver. reflexivity.
  - pattern w3. apply E3. pattern w2. apply E2. simpl.
    erewrite status_lookup by lookup_solver. reflexivity.
  - pattern w3. apply E3. pattern w1. apply E1. requests_solve.
  - pattern w3. apply E3. reflexivity.
Qed.

End attach.

Section concurrent_attach.

(** C6, as the code has it.  On a detached target whose queue is idle, two
    [attach()] calls made before the remote call answers issue that call
    once.  If it succeeds the first call resolves to the [Cdp.Api] handle
    and the second, finding the target attached, to [undefined]; if it
    fails both are rejected with the failure.  The same holds when the two
    calls are made in one turn of the event loop. *)
Theorem concurrent_attach_one_call (h : Host) (w : World) (this : ref)
    (o : NodeTarget) (v answer e : value) :
  microtasks w = [] →
  objs (store w) !! this = Some o →
  _attached o = false →
  status w (_serialize o) = Fulfilled v →
  _serialize o < next_pid w →
  let p1 := next_pid w in
  let w1 := turn h 64 (Invoke (Attach this)) w in
  let p2 := next_pid w1 in
  let w2 := turn h 64 (Invoke (Attach this)) w1 in
  let x := 4 + next_pid w in
  let ok := turn h 64 (Settle x (Fulfilled answer)) w2 in
  let ko := turn h 64 (Settle x (Rejected e)) w2 in
  let p2' := 2 + next_pid w in
  let x' := 6 + next_pid w in
  let w1' := invoke h (Attach this) w in
  let w2' := drain 64 (invoke h (Attach this) w1') in
  let ok' := turn h 64 (Settle x' (Fulfilled answer)) w2' in
  requests (store w2)
  = requests (store w) ++ [(AttachToTarget (_cdp o) (_targetId o), x)]
  ∧ status w2 p1 = Pending ∧ status w2 p2 = Pending
  ∧ status ok p1 = Fulfilled (VCdpApi (_cdp o))
  ∧ status ok p2 = Fulfilled VUndefined
  ∧ requests (store ok) = requests (store w2)
  ∧ status ko p1 = Rejected e ∧ status ko p2 = Rejected e
  ∧ requests (store ko) = requests (store w2)
  ∧ requests (store w2')
    = requests (store w) ++ [(AttachToTarget (_cdp o) (_targetId o), x')]
  ∧ status ok' p1 = Fulfilled (VCdpApi (_cdp o))
  ∧ status ok' p2' = Fulfilled VUndefined
  ∧ requests (store ok') = requests (store w2').
Proof.
  intros Hq Ho Ha Hs Hlt.
  intros p1 w1 p2 w2 x ok ko p2' x' w1' w2' ok'.
  destruct w as [s hp n q ts].
  cbn [microtasks store next_pid heap] in Hq, Ho, Hlt, p1, x, p2', x'. subst q.
  unfold status, promise in Hs. cbn [heap] in Hs.
  destruct (hp !! _serialize o) as [[st rs es]|] eqn:Hc; cbn in Hs;
    [subst st|done].
  eassert (∀ P : World → Prop, P _ → P w1) as E1.
  { intros P HP. subst w1. run_with Ha. exact HP. }
  eassert (∀ P : World → Prop, P _ → P w2) as E2.
  { intros P HP. subst w2. pattern w1. apply E1. run_with Ha. exact HP. }
  eassert (∀ P : World → Prop, P _ → P ok) as Eok.
  { intros P HP. subst ok. pattern w2. apply E2. run_with Ha. exact HP. }
  eassert (∀ P : World → Prop, P _ → P ko) as Eko.
  { intros P HP. subst ko. pattern w2. apply E2. run_with Ha. exact HP. }
  eassert (∀ P : World → Prop, P _ → P w1') as E1'.
  { intros P HP. subst w1'. run_with Ha. exact HP. }
  eassert (∀ P : World → Prop, P _ → P w2') as E2'.
  { intros P HP. subst w2'. pattern w1'. apply E1'. run_with Ha. exact HP. }
  eassert (∀ P : World → Prop, P _ → P ok') as Eok'.
  { intros P HP. subst ok'. pattern w2'. apply E2'. run_with Ha. exact HP. }
  assert (p2 = 5 + n) as ->.
  { subst p2. pattern w1. apply E1. reflexivity. }
  subst p1 p2' x x'. clearbody w1 w2 ok ko w1' w2' ok'.
  split_and!.
  - pattern w2. apply E2. requests_solve.
  - pattern w2. apply E2. erewrite status_lookup by lookup_solver. reflexivity.
  - pattern w2. apply E2. erewrite status_lookup by lookup_solver. reflexivity.
  - pattern ok. apply Eok. erewrite status_lookup by lookup_solver. reflexivity.
  - pattern ok. apply Eok. erewrite status_lookup by lookup_solver. reflexivity.
  - pattern ok. apply Eok. pattern w2. apply E2.
    requests_solve.
  - pattern ko. apply Eko. erewrite status_lookup by lookup_solver. reflexivity.
  - pattern ko. apply Eko. erewrite status_lookup by lookup_solver. reflexivity.
  - pattern ko. apply Eko. pattern w2. apply E2. requests_solve.
  - pattern w2'. apply E2'. requests_solve.
  - pattern ok'. apply Eok'. erewrite status_lookup by lookup_solver. reflexivity.
  - pattern ok'. apply Eok'. erewrite status_lookup by lookup_solver. reflexivity.
  - pattern ok'. apply Eok'. pattern w2'. apply E2'.
    requests_solve.
Qed.

End concurrent_attach.
(** ** Promises only settle once *)

Section later.




Lemma status_upd_store f w p : status (upd_store f w) p = status w p.
Proof. reflexivity. Qed.

Lemma status_set_microtasks q w p : status (set_microtasks q w) p = status w p.
Proof. reflexivity. Qed.

Lemma status_set_timers t w p : status (set_timers t w) p = status w p.
Proof. reflexivity. Qed.



Lemma promise_subscribe q r w p :
  promise (subscribe q r w) p
  = if decide (q = p) then
      match state (promise w q) with
      | Pending => {| state := Pending; reactions := reactions (promise w q) ++ [r];
                      elements := elements (promise w q) |}
      | _ => promise w q
      end
    else promise w p.
Proof.
  unfold subscribe. destruct (decide (q = p)) as [<-|Hne].
  - destruct (state (promise w q)); try done.
    unfold promise at 1. simpl. by rewrite lookup_insert_eq.
  - destruct (state (promise w q)); try done.
    unfold promise at 1. simpl. by rewrite lookup_insert_ne.
Qed.

















End later.


(** ** The chain of fan-ins behind the launch blocker *)

Section chain.









Lemma elements_subscribe q r w p :
  elements (promise (subscribe q r w) p) = elements (promise w p).
Proof.
  rewrite promise_subscribe.
  destruct (decide (q = p)) as [<-|]; [|done].
  by destruct (state (promise w q)).
Qed.


Lemma settled_kept w w' p :
  later w w' → p < next_pid w → is_settled (status w p) = true →
  status w' p = status w p.
Proof. intros [_ H]. apply H. Qed.










Lemma all_values_pair (e0 e1 : option value) :
  all_values [e0; e1]
  = match e0, e1 with
    | Some v0, Some v1 => Some [v0; v1]
    | _, _ => None
    end.
Proof. by destruct e0, e1. Qed.










End chain.

(** ** Calls on the chain: another prediction, and the launch *)

Section calls.





(** [predictBreakpoints] on a launcher with a predictor, step by step. *)
Lemma predict_exec params w :
  _breakpointsPredictor (launcher (store w)) = true →
  exec (predictBreakpoints params (λ _, Ret VUndefined)) None w
  = upd_store (upd_launcher (set_launchBlocker (S (next_pid w))))
      (subscribe (next_pid w) (RAllElement (S (next_pid w)) 1)
         (subscribe (_launchBlocker (launcher (store w)))
            (RAllElement (S (next_pid w)) 0)
            (alloc {| state := Pending; reactions := [];
                      elements := [None; None] |}
               (upd_store (emit (Request (OnSetBreakpoints params) (next_pid w)))
                  (alloc pending_cell w).2)).2)).
Proof.
  intros Hp. unfold predictBreakpoints. cbn [exec]. rewrite Hp. reflexivity.
Qed.














End calls.

(** ** No reaction stays on a settled promise *)

Section tidy.

Lemma tidy_same w w' : (∀ p, promise w' p = promise w p) → tidy w → tidy w'.
Proof. intros E T p. unfold status. rewrite E. apply T. Qed.














End tidy.

(** ** The waiting launch is not lost, and resumes *)

Section resuming.

Context (h : Host) (c : N).












(** *** Every suspended function stays tame *)














(** *** The store only grows *)





(** *** The waiting launch stays on its way *)

Section on_its_way.

Context (k : value → Prog) (L bL : pid).











End on_its_way.

(** *** Waiting, or resumed *)

Section waiting.

Context (base : list effect) (params : LaunchParams) (L bL : pid).

Let k := launch_after_blocker h params.











End waiting.


End resuming.

(** ** C7: what a launch waits for *)

Section launch_blocker.



End launch_blocker.

(** ** The server and the terminal: stopping twice, starting then stopping *)

Section server.

Lemma foldl_close cs : ∀ s,
  foldl (λ s c, emit (ConnectionClose c) s) s cs
  = {| counter := counter s; launcher := launcher s; objs := objs s;
       next_ref := next_ref s; next_terminal := next_terminal s;
       next_session := next_session s; onDisconnected := onDisconnected s;
       trace := trace s ++ (ConnectionClose <$> cs) |}.
Proof.
  induction cs as [|c cs IH]; intros s; simpl.
  - rewrite app_nil_r. by destruct s.
  - rewrite IH. simpl. by rewrite <- app_assoc.
Qed.

(** [_stopServer()] in one step. *)
Lemma _stopServer_eq s :
  _stopServer s
  = {| counter := counter s;
       launcher := set_connections [] (set_server None (launcher s));
       objs := objs s; next_ref := next_ref s;
       next_terminal := next_terminal s; next_session := next_session s;
       onDisconnected := onDisconnected s;
       trace := trace s
                ++ match _server (launcher s) with
                   | Some path => [ServerClose path]
                   | None => []
                   end
                ++ (ConnectionClose <$> _connections (launcher s)) |}.
Proof.
  unfold _stopServer. cbv zeta. rewrite foldl_close.
  destruct (_server (launcher s)); simpl; by rewrite <- ?app_assoc.
Qed.

Lemma server_stopServer s : _server (launcher (_stopServer s)) = None.
Proof. by rewrite _stopServer_eq. Qed.

Lemma connections_stopServer s : _connections (launcher (_stopServer s)) = [].
Proof. by rewrite _stopServer_eq. Qed.

Lemma trace_stopServer s :
  trace (_stopServer s)
  = trace s
    ++ match _server (launcher s) with
       | Some path => [ServerClose path]
       | None => []
       end
    ++ (ConnectionClose <$> _connections (launcher s)).
Proof. by rewrite _stopServer_eq. Qed.

Lemma terminal_killRuntime s : _terminal (launcher (_killRuntime s)) = None.
Proof. unfold _killRuntime. by destruct (_terminal (launcher s)) eqn:E. Qed.

Lemma trace_killRuntime s :
  trace (_killRuntime s)
  = trace s
    ++ match _terminal (launcher s) with
       | Some t => [TerminalDispose t]
       | None => []
       end.
Proof.
  unfold _killRuntime. destruct (_terminal (launcher s)); simpl; [done|].
  by rewrite app_nil_r.
Qed.

(** [_stopServer()] (and so [dispose()]) closes the listening server, if
    there is one, and then every connection once, in the order they were
    accepted; it leaves no server and no connection, so that a second call
    changes nothing and closes nothing. *)
Theorem stopServer_closes_once (s : Store) :
  let s' := _stopServer s in
  _server (launcher s') = None
  ∧ _connections (launcher s') = []
  ∧ trace s'
    = trace s
      ++ match _server (launcher s) with
         | Some path => [ServerClose path]
         | None => []
         end
      ++ (ConnectionClose <$> _connections (launcher s))
  ∧ _pipe (launcher s') = _pipe (launcher s)
  ∧ _stopServer s' = s'
  ∧ dispose (dispose s) = dispose s.
Proof.
  intros s'. subst s'.
  assert (_stopServer (_stopServer s) = _stopServer s) as Hidem.
  { rewrite (_stopServer_eq (_stopServer s)). rewrite _stopServer_eq. simpl.
    by rewrite !app_nil_r. }
  rewrite _stopServer_eq at 1 2 3 4. simpl. by split_and!.
Qed.

(** [_killRuntime()] disposes the terminal if there is one and forgets it:
    a second call changes nothing and disposes nothing. *)
Theorem killRuntime_disposes_once (s : Store) :
  let s' := _killRuntime s in
  _terminal (launcher s') = None
  ∧ trace s'
    = trace s
      ++ match _terminal (launcher s) with
         | Some t => [TerminalDispose t]
         | None => []
         end
  ∧ _killRuntime s' = s'.
Proof.
  unfold _killRuntime. destruct (_terminal (launcher s)) as [t|] eqn:E; simpl.
  - by split_and!.
  - rewrite E, app_nil_r. by split_and!.
Qed.

(** [_startServer()] then [_stopServer()]: the server closed is the one just
    opened, under the name built from the incremented counter.  A server
    that was already listening when [_startServer()] ran is overwritten in
    [_server] and is not closed; [_pipe] keeps the path after the stop. *)
Theorem startServer_then_stopServer (h : Host) (s : Store) :
  let pipe := path_join h (pipePrefix h)
                (socket_name h (pre_increment (counter s))) in
  let s' := _stopServer (_startServer h s) in
  trace s'
  = trace s ++ [ServerListen pipe; ServerClose pipe]
    ++ (ConnectionClose <$> _connections (launcher s))
  ∧ _server (launcher (_startServer h s)) = Some pipe
  ∧ _server (launcher s') = None
  ∧ _pipe (launcher s') = Some pipe
  ∧ counter s' = pre_increment (counter s).
Proof.
  intros pipe s'. subst s'. rewrite _stopServer_eq. simpl.
  rewrite <- app_assoc. by split_and!.
Qed.

End server.

(** ** The target tree: adoption, and connecting then disconnecting *)

Section adoption.

Lemma indexOf_app_notin (x : ref) (l l' : list ref) :
  x ∉ l → indexOf x (l ++ x :: l') = Z.of_nat (length l).
Proof.
  induction l as [|y l IH]; intros Hx.
  - simpl. by rewrite Nat.eqb_refl.
  - apply not_elem_of_cons in Hx as [Hne Hx]. cbn [app indexOf].
    rewrite (proj2 (Nat.eqb_neq y x)) by done. rewrite (IH Hx).
    destruct (Z.of_nat (length l)) eqn:E; simpl length; lia.
Qed.

Lemma indexOf_notin (x : ref) (l : list ref) : x ∉ l → indexOf x l = (-1)%Z.
Proof.
  induction l as [|y l IH]; intros Hx; [done|].
  apply not_elem_of_cons in Hx as [Hne Hx]. cbn [indexOf].
  rewrite (proj2 (Nat.eqb_neq y x)) by done. by rewrite (IH Hx).
Qed.

Lemma splice_middle (x : ref) (l l' : list ref) :
  splice (Z.of_nat (length l)) 1 (l ++ x :: l') = l ++ l'.
Proof.
  unfold splice. cbv zeta.
  rewrite (proj2 (Z.ltb_ge _ _)) by lia.
  rewrite Z.min_l by (rewrite length_app; simpl; lia).
  rewrite Nat2Z.id, take_app_length.
  replace (length l + 1) with (length l + 1 + 0) by lia.
  rewrite <- Nat.add_assoc. rewrite drop_app_add. done.
Qed.

Lemma splice_indexOf (x : ref) (l l' : list ref) :
  x ∉ l → splice (indexOf x (l ++ x :: l')) 1 (l ++ x :: l') = l ++ l'.
Proof. intros Hx. rewrite indexOf_app_notin by done. apply splice_middle. Qed.

(** A target whose opener identifier names a target of the launcher's map
    is constructed as the last child of that target: [parent()] is the
    opener, the opener's children are the former ones followed by the new
    target, the new target is registered under its own identifier and no
    other object changes. *)
Theorem known_opener_is_parent (h : Host) (serialize : pid)
    (connection cdp : nat) (targetInfo : TargetInfo) (opener : string)
    (p : ref) (op : NodeTarget) (s : Store) :
  openerId targetInfo = Some opener →
  _targets (launcher s) !! opener = Some p →
  objs s !! p = Some op →
  objs s !! next_ref s = None →
  let this := (NodeTarget_new h serialize connection cdp targetInfo s).1 in
  let s' := (NodeTarget_new h serialize connection cdp targetInfo s).2 in
  Target.parent s' this = Some p
  ∧ Target.hasParent s' this = true
  ∧ Target.children s' p = _children op ++ [this]
  ∧ Target.parent s' p = _parent op
  ∧ Target.children s' this = []
  ∧ _targets (launcher s') !! targetId targetInfo = Some this
  ∧ (∀ r, r ≠ this → r ≠ p → objs s' !! r = objs s !! r).
Proof.
  intros Hop Hmap Hp Hfresh.
  assert (p ≠ next_ref s) as Hne by (intros ->; congruence).
  unfold NodeTarget_new. cbv zeta. rewrite Hop.
  cbn [mbind option_bind launcher set_next_ref set_objs fst snd].
  rewrite Hmap.
  erewrite _setParent_orphan by (simpl; first [apply lookup_insert_eq | done]).
  unfold Target.parent, Target.hasParent, Target.children, target, upd_target.
  cbn [objs launcher emit set_onDisconnected upd_launcher set_objs set_next_ref
       _targets set_targets].
  split_and!.
  - by rewrite lookup_alter_ne, lookup_alter_eq, lookup_insert_eq by done.
  - by rewrite lookup_alter_ne, lookup_alter_eq, lookup_insert_eq by done.
  - rewrite lookup_alter_eq, lookup_alter_ne, lookup_insert_ne, Hp by done. done.
  - rewrite lookup_alter_eq, lookup_alter_ne, lookup_insert_ne, Hp by done. done.
  - by rewrite lookup_alter_ne, lookup_alter_eq, lookup_insert_eq by done.
  - apply lookup_insert_eq.
  - intros r Hr Hrp. by rewrite !lookup_alter_ne, lookup_insert_ne by done.
Qed.

Lemma _setParent_child s this o p parent :
  objs s !! this = Some o → _parent o = Some p →
  _setParent this parent s
  = let s2 :=
      upd_target this (set_parent parent)
        (upd_target p
           (λ o, set_children (splice (indexOf this (_children o)) 1 (_children o)) o)
           s) in
    match parent with
    | Some q => upd_target q (λ o, set_children (_children o ++ [this]) o) s2
    | None => s2
    end.
Proof.
  intros Ho Hp. unfold _setParent, target. rewrite Ho. simpl. by rewrite Hp.
Qed.

Lemma forEach_empty (arr : Store → list ref) callback s :
  arr s = [] → forEach arr callback s = s.
Proof. intros H. unfold forEach. by rewrite H. Qed.

(** The store the constructor leaves, with [_setParent] spelled out. *)
Lemma NodeTarget_new_eq h serialize connection cdp targetInfo s :
  let this := next_ref s in
  let opener := openerId targetInfo ≫= λ id, _targets (launcher s) !! id in
  let o :=
    {| _connection := connection; _cdp := cdp; _parent := opener;
       _children := []; _targetId := targetId targetInfo;
       _targetName :=
         if String.eqb (title targetInfo) ""
         then "[" +:+ targetId targetInfo +:+ "]"
         else path_basename h (title targetInfo)
                +:+ " [" +:+ targetId targetInfo +:+ "]";
       _scriptName := title targetInfo; _serialize := serialize;
       _attached := false;
       _waitingForDebugger := String.eqb (type_ targetInfo) "waitingForDebugger" |} in
  NodeTarget_new h serialize connection cdp targetInfo s
  = (this,
     {| counter := counter s;
        launcher := set_targets (<[targetId targetInfo := this]>
                                   (_targets (launcher s))) (launcher s);
        objs := match opener with
                | Some p => alter (λ o, set_children (_children o ++ [this]) o) p
                              (<[this := o]> (objs s))
                | None => <[this := o]> (objs s)
                end;
        next_ref := S this; next_terminal := next_terminal s;
        next_session := next_session s;
        onDisconnected := onDisconnected s ++ [(connection, this)];
        trace := trace s ++ [TargetOn cdp "targetDestroyed"] |}).
Proof.
  intros this opener o. unfold NodeTarget_new. cbv zeta.
  cbn [launcher set_next_ref set_objs]. fold opener this.
  erewrite _setParent_orphan by (simpl; first [apply lookup_insert_eq | done]).
  f_equal. destruct opener as [p|]; unfold upd_target; simpl;
    rewrite alter_insert_eq; reflexivity.
Qed.

(** A target that connects and then disconnects, having opened no target
    itself, leaves the launcher and every other target as they were: its
    opener's children are the former ones again, the launcher's map is the
    former one (its identifier was free), and only the subscription to
    ['targetDestroyed'] and one change notification have been recorded. *)
Theorem connect_then_disconnect (h : Host) (serialize : pid)
    (connection cdp : nat) (targetInfo : TargetInfo) (s : Store) :
  let opener := openerId targetInfo ≫= λ id, _targets (launcher s) !! id in
  objs s !! next_ref s = None →
  _targets (launcher s) !! targetId targetInfo = None →
  (∀ p, opener = Some p →
        ∃ op, objs s !! p = Some op ∧ next_ref s ∉ _children op) →
  let this := (NodeTarget_new h serialize connection cdp targetInfo s).1 in
  let s' := (NodeTarget_new h serialize connection cdp targetInfo s).2 in
  let s'' := _disconnected this s' in
  launcher s'' = launcher s
  ∧ (∀ r, r ≠ this → objs s'' !! r = objs s !! r)
  ∧ Target.parent s'' this = None
  ∧ trace s'' = trace s ++ [TargetOn cdp "targetDestroyed"; FireTargetListChanged].
Proof.
  intros opener Hfresh Hid Hopener this s' s''.
  subst this s' s''. rewrite NodeTarget_new_eq. cbv zeta. fold opener.
  cbn [fst snd].
  set (this := next_ref s).
  set (o := {| _connection := connection; _cdp := cdp; _parent := opener;
               _children := []; _targetId := targetId targetInfo;
               _targetName := _; _scriptName := _; _serialize := _;
               _attached := _; _waitingForDebugger := _ |}).
  set (s' := {| counter := counter s; launcher := _; objs := _;
                next_ref := _; next_terminal := _; next_session := _;
                onDisconnected := _; trace := _ |}).
  assert (launcher s
          = set_targets
              (delete (targetId targetInfo)
                 (<[targetId targetInfo := this]> (_targets (launcher s))))
              (launcher s)) as Hl.
  { rewrite delete_insert_id by done. by destruct (launcher s). }
  assert (objs s' !! this = Some o) as Hthis.
  { unfold s'. cbn [objs]. destruct opener as [p|] eqn:Eo.
    - destruct (Hopener p eq_refl) as (op & Hp & _).
      rewrite lookup_alter_ne; [apply lookup_insert_eq|].
      intros ->. unfold this in *. congruence.
    - apply lookup_insert_eq. }
  unfold _disconnected. cbv zeta.
  rewrite forEach_empty by (by rewrite (target_lookup _ _ _ Hthis)).
  destruct opener as [p|] eqn:Eo.
  - destruct (Hopener p eq_refl) as (op & Hp & Hnotin).
    assert (p ≠ this) as Hne by (intros ->; unfold this in Hp; congruence).
    rewrite (_setParent_child _ _ _ p None Hthis eq_refl). cbv zeta.
    unfold Target.parent, target, upd_target.
    cbn [objs launcher emit upd_launcher set_objs _targets set_targets trace].
    rewrite lookup_alter_eq, lookup_alter_ne, Hthis by done.
    cbn [default fmap option_fmap option_map set_parent _targetId _parent].
    split_and!.
    + unfold o. cbn [_targetId]. exact (eq_sym Hl).
    + intros r Hr. rewrite lookup_alter_ne by done.
      destruct (decide (r = p)) as [->|Hrp].
      * unfold s'. cbn [objs].
        rewrite !lookup_alter_eq, lookup_insert_ne, Hp by done.
        cbn [fmap option_fmap option_map set_children _children].
        rewrite splice_indexOf by done. rewrite app_nil_r. by destruct op.
      * unfold s'. cbn [objs].
        by rewrite !lookup_alter_ne, lookup_insert_ne by done.
    + done.
    + unfold s'. cbn [trace]. by rewrite <- app_assoc.
  - erewrite _setParent_orphan by (first [exact Hthis | done]).
    unfold Target.parent, target, upd_target.
    cbn [objs launcher emit upd_launcher set_objs _targets set_targets trace].
    rewrite lookup_alter_eq, Hthis.
    cbn [default fmap option_fmap option_map set_parent _targetId _parent].
    split_and!.
    + exact (eq_sym Hl).
    + intros r Hr. unfold s'. cbn [objs].
      by rewrite lookup_alter_ne, lookup_insert_ne by done.
    + done.
    + unfold s'. cbn [trace]. by rewrite <- app_assoc.
Qed.

End adoption.

(** ** A target disconnects: which children move *)

Section disconnected.

Variables (s : Store) (T : ref) (oT : NodeTarget).
Hypothesis HT : objs s !! T = Some oT.
Hypothesis Hnodup : NoDup (_children oT).
Hypothesis HnotT : T ∉ _children oT.
Hypothesis Hkids :
  ∀ c, c ∈ _children oT → ∃ oc, objs s !! c = Some oc ∧ _parent oc = Some T.
Hypothesis Hparent :
  ∀ p, _parent oT = Some p →
       p ≠ T ∧ (p ∉ _children oT) ∧ ∃ op, objs s !! p = Some op.

Lemma visiting_start : visiting s T oT [] (_children oT) [] s.
Proof.
  split.
  - by destruct s.
  - done.
  - rewrite HT. by destruct oT.
  - intros c Hc. by apply elem_of_nil in Hc.
  - done.
  - intros p Hp. destruct (Hparent p Hp) as (_ & _ & op & Hop).
    exists op. split; [done|]. rewrite Hop, app_nil_r. by destruct op.
  - done.
Qed.

(** The callback on the child at the current index. *)
Lemma visiting_step kept c rest mv s' :
  visiting s T oT kept (c :: rest) mv s' →
  visiting s T oT kept rest (mv ++ [c])
    (_setParent c (_parent (target s' T)) s').
Proof.
  intros H.
  pose proof (vis_all _ _ _ _ _ _ _ H) as Hall.
  assert (NoDup (mv ++ kept ++ c :: rest)) as Hnd by by rewrite Hall.
  assert (c ∈ _children oT) as Hc.
  { rewrite <- Hall. apply elem_of_app. right. apply elem_of_app. right.
    apply list_elem_of_here. }
  assert (c ≠ T) as HcT by (intros ->; done).
  assert ((c ∉ kept) ∧ (c ∉ rest) ∧ (c ∉ mv)) as (Hck & Hcr & Hcm).
  { apply NoDup_app in Hnd as (_ & Hd & Hnd).
    apply NoDup_app in Hnd as (_ & Hd' & Hnd).
    apply NoDup_cons in Hnd as [Hcr _].
    split_and!; [|done|].
    - intros Hin. apply (Hd' c Hin). apply list_elem_of_here.
    - intros Hin. apply (Hd c Hin). apply elem_of_app. right.
      apply list_elem_of_here. }
  destruct (Hkids c Hc) as (oc & Hoc & Hpc).
  assert (objs s' !! c = Some oc) as Hoc'.
  { rewrite (vis_ahead _ _ _ _ _ _ _ H); [done|].
    apply elem_of_app. right. apply list_elem_of_here. }
  pose proof (vis_this _ _ _ _ _ _ _ H) as HT'.
  rewrite (target_lookup _ _ _ HT').
  rewrite (_setParent_child _ _ _ T _ Hoc' Hpc). cbv zeta.
  cbn [_parent set_children].
  set (s2 := upd_target c _ (upd_target T _ s')).
  assert (objs s2 !! T = Some (set_children (kept ++ rest) oT)) as HT2.
  { unfold s2, upd_target. cbn [objs set_objs].
    rewrite lookup_alter_ne, lookup_alter_eq, HT' by done.
    cbn [fmap option_fmap option_map set_children _children].
    by rewrite splice_indexOf by done. }
  assert (objs s2 !! c = Some (set_parent (_parent oT) oc)) as Hc2.
  { unfold s2, upd_target. cbn [objs set_objs].
    by rewrite lookup_alter_eq, lookup_alter_ne, Hoc' by done. }
  assert (∀ r, r ≠ T → r ≠ c → objs s2 !! r = objs s' !! r) as Hfr2.
  { intros r ? ?. unfold s2, upd_target. cbn [objs set_objs].
    by rewrite !lookup_alter_ne by done. }
  assert (s2 = set_objs (objs s2) s) as Hframe2.
  { unfold s2, upd_target. rewrite (vis_frame _ _ _ _ _ _ _ H). done. }
  assert (mv ++ [c] ++ kept ++ rest ≡ₚ _children oT) as Hall'.
  { rewrite <- Hall. apply Permutation_app_head.
    apply (Permutation_middle kept rest c). }
  destruct (_parent oT) as [p|] eqn:EP.
  - destruct (Hparent p eq_refl) as (HpT & Hpcs & _).
    destruct (vis_parent _ _ _ _ _ _ _ H p EP) as (op & Hop & Hop').
    assert (p ≠ c) as Hpc' by (intros ->; done).
    split; rewrite ?EP.
    + unfold upd_target. rewrite Hframe2. done.
    + by rewrite <- app_assoc.
    + unfold upd_target. cbn [objs set_objs]. by rewrite lookup_alter_ne.
    + intros c' Hc'. unfold upd_target. cbn [objs set_objs].
      apply elem_of_app in Hc' as [Hc' | ->%list_elem_of_singleton].
      * destruct (vis_moved _ _ _ _ _ _ _ H c' Hc') as (oc' & ? & Hm).
        rewrite EP in Hm. exists oc'. split; [done|].
        assert (c' ∈ _children oT).
        { rewrite <- Hall. apply elem_of_app. by left. }
        rewrite lookup_alter_ne by (intros ->; done).
        rewrite Hfr2; [done | by intros -> | by intros ->].
      * exists oc. split; [done|]. by rewrite lookup_alter_ne.
    + intros c' Hc'. unfold upd_target. cbn [objs set_objs].
      assert (c' ∈ _children oT).
      { rewrite <- Hall. apply elem_of_app. right.
        apply elem_of_app in Hc' as [?|?]; apply elem_of_app; [by left|].
        right. by apply list_elem_of_further. }
      rewrite lookup_alter_ne by (intros ->; done).
      rewrite Hfr2; [| by intros -> |].
      * apply (vis_ahead _ _ _ _ _ _ _ H).
        apply elem_of_app in Hc' as [?|?]; apply elem_of_app; [by left|].
        right. by apply list_elem_of_further.
      * intros ->. apply elem_of_app in Hc' as [?|?]; done.
    + intros p' [= <-]. exists op. split; [done|].
      unfold upd_target. cbn [objs set_objs].
      rewrite lookup_alter_eq, Hfr2, Hop' by done.
      cbn [fmap option_fmap option_map set_children _children].
      by rewrite <- app_assoc.
    + intros r HrT Hrcs Hrp. unfold upd_target. cbn [objs set_objs].
      rewrite lookup_alter_ne by congruence.
      rewrite Hfr2; [| done | by intros ->].
      apply (vis_others _ _ _ _ _ _ _ H); [done | done | by rewrite EP].
  - split; rewrite ?EP.
    + done.
    + by rewrite <- app_assoc.
    + done.
    + intros c' Hc'.
      apply elem_of_app in Hc' as [Hc' | ->%list_elem_of_singleton].
      * destruct (vis_moved _ _ _ _ _ _ _ H c' Hc') as (oc' & ? & Hm).
        rewrite EP in Hm. exists oc'. split; [done|].
        assert (c' ∈ _children oT).
        { rewrite <- Hall. apply elem_of_app. by left. }
        rewrite Hfr2; [done | by intros -> | by intros ->].
      * exists oc. by split.
    + intros c' Hc'.
      assert (c' ∈ _children oT).
      { rewrite <- Hall. apply elem_of_app. right.
        apply elem_of_app in Hc' as [?|?]; apply elem_of_app; [by left|].
        right. by apply list_elem_of_further. }
      rewrite Hfr2; [| by intros -> |].
      * apply (vis_ahead _ _ _ _ _ _ _ H).
        apply elem_of_app in Hc' as [?|?]; apply elem_of_app; [by left|].
        right. by apply list_elem_of_further.
      * intros ->. apply elem_of_app in Hc' as [?|?]; done.
    + done.
    + intros r HrT Hrcs Hrp.
      rewrite Hfr2; [| done | by intros ->].
      apply (vis_others _ _ _ _ _ _ _ H); [done | done | by rewrite EP].
Qed.

Lemma visiting_shift kept d rest mv s' :
  visiting s T oT kept (d :: rest) mv s' →
  visiting s T oT (kept ++ [d]) rest mv s'.
Proof.
  intros [? ? ? ? ? ? ?]. split; rewrite <- ?app_assoc; done.
Qed.

(** The whole loop: of the children still ahead, those at even positions
    move and those at odd positions are stepped over. *)
Lemma visiting_loop len : ∀ k kept rest mv s',
  visiting s T oT kept rest mv s' →
  length kept = k ∨ rest = [] ∧ length kept ≤ k →
  length rest ≤ 2 * len →
  visiting s T oT (kept ++ odds rest) [] (mv ++ evens rest)
    (forEach_from len k (λ s, _children (target s T))
       (λ child s, _setParent child (_parent (target s T)) s) s').
Proof.
  induction len as [|len IH]; intros k kept rest mv s' H Hk Hlen.
  { destruct rest; [|simpl in Hlen; lia]. simpl. by rewrite !app_nil_r. }
  cbn [forEach_from].
  rewrite (target_lookup _ _ _ (vis_this _ _ _ _ _ _ _ H)). cbn [_children set_children].
  destruct rest as [|c rest].
  - rewrite lookup_ge_None_2 by (rewrite app_nil_r; destruct Hk as [? | [_ ?]]; lia).
    apply IH; [done | | simpl; lia].
    right. split; [done|]. destruct Hk as [? | [_ ?]]; lia.
  - destruct Hk as [Hk | [? _]]; [|done].
    rewrite lookup_app_r, Hk, Nat.sub_diag by lia. cbn [lookup list_lookup].
    pose proof (visiting_step _ _ _ _ _ H) as H'.
    rewrite (target_lookup _ _ _ (vis_this _ _ _ _ _ _ _ H)) in H'.
    destruct rest as [|d rest].
    + replace (kept ++ odds [c]) with (kept ++ odds []) by done.
      replace (mv ++ evens [c]) with ((mv ++ [c]) ++ evens [])
        by (by rewrite <- app_assoc).
      apply IH; [done | | simpl; lia]. right. split; [done | lia].
    + replace (kept ++ odds (c :: d :: rest)) with ((kept ++ [d]) ++ odds rest)
        by (by rewrite <- app_assoc).
      replace (mv ++ evens (c :: d :: rest)) with ((mv ++ [c]) ++ evens rest)
        by (by rewrite <- app_assoc).
      apply IH; [by apply visiting_shift | | simpl in *; lia].
      left. rewrite length_app. simpl. lia.
Qed.

(** When target [T] disconnects, [forEach] runs over the array that each
    callback shortens: the children at positions 0, 2, 4, ... move under
    [T]'s parent (or become roots), in order, and those at positions 1, 3,
    5, ... are never visited: they keep [T] as parent and stay in its child
    list.  [T] loses its parent, leaves its parent's child list and the
    launcher's map, and the change notification fires once. *)
Theorem disconnected_moves_even_children :
  let s' := _disconnected T s in
  Target.children s' T = odds (_children oT)
  ∧ Target.parent s' T = None
  ∧ (∀ c, c ∈ evens (_children oT) → Target.parent s' c = _parent oT)
  ∧ (∀ c, c ∈ odds (_children oT) → Target.parent s' c = Some T)
  ∧ (∀ p op pre post,
       _parent oT = Some p → objs s !! p = Some op →
       _children op = pre ++ T :: post → T ∉ pre →
       Target.children s' p = pre ++ post ++ evens (_children oT))
  ∧ _targets (launcher s') = delete (_targetId oT) (_targets (launcher s))
  ∧ trace s' = trace s ++ [FireTargetListChanged].
Proof.
  intros s'. subst s'. unfold _disconnected, forEach. cbv zeta.
  rewrite (target_lookup _ _ _ HT).
  pose proof (visiting_loop (length (_children oT)) 0 [] (_children oT) [] s
                visiting_start ltac:(by left) ltac:(lia)) as H.
  cbn [app] in H. set (s1 := forEach_from _ _ _ _ s) in *.
  pose proof (vis_this _ _ _ _ _ _ _ H) as HT1. rewrite app_nil_r in HT1.
  pose proof (vis_all _ _ _ _ _ _ _ H) as Hall. rewrite app_nil_r in Hall.
  assert (∀ c, c ∈ evens (_children oT) → c ∈ _children oT) as Hev.
  { intros c Hc. rewrite <- Hall. apply elem_of_app. by left. }
  assert (∀ c, c ∈ odds (_children oT) → c ∈ _children oT) as Hod.
  { intros c Hc. rewrite <- Hall. apply elem_of_app. by right. }
  assert (launcher s1 = launcher s ∧ trace s1 = trace s) as [Hl1 Ht1].
  { rewrite (vis_frame _ _ _ _ _ _ _ H). done. }
  set (s2 := _setParent T None s1).
  assert (∃ m, s2 = set_objs m s1
               ∧ m !! T = Some (set_parent None (set_children (odds (_children oT)) oT))
               ∧ (∀ r, r ≠ T → _parent oT ≠ Some r → m !! r = objs s1 !! r)
               ∧ (∀ p op1, _parent oT = Some p → objs s1 !! p = Some op1 →
                    m !! p = Some (set_children
                                     (splice (indexOf T (_children op1)) 1
                                        (_children op1)) op1)))
    as (m & Hs2 & HmT & Hmr & Hmp).
  { unfold s2. destruct (_parent oT) as [p|] eqn:EP.
    - destruct (Hparent p eq_refl) as (HpT & _ & _).
      rewrite (_setParent_child _ _ _ p None HT1 EP). cbv zeta.
      unfold upd_target. cbn [objs set_objs]. eexists. split; [reflexivity|].
      split_and!.
      + by rewrite lookup_alter_eq, lookup_alter_ne, HT1 by done.
      + intros r Hr Hrp. rewrite !lookup_alter_ne by congruence. done.
      + intros p' op1 [= <-] Hop1.
        by rewrite lookup_alter_ne, lookup_alter_eq, Hop1 by done.
    - erewrite _setParent_orphan by (first [exact HT1 | exact EP]).
      unfold upd_target. eexists. split; [reflexivity|]. split_and!.
      + by rewrite lookup_alter_eq, HT1.
      + intros r Hr _. by rewrite lookup_alter_ne.
      + done. }
  clearbody s2. subst s2.
  unfold Target.children, Target.parent, target.
  cbn [objs launcher emit upd_launcher set_objs _targets set_targets trace].
  rewrite HmT, Hl1, Ht1.
  cbn [default set_parent set_children _children _parent _targetId].
  split_and!; try done.
  - intros c Hc.
    destruct (vis_moved _ _ _ _ _ _ _ H c Hc) as (oc & Hoc & Hoc1).
    pose proof (Hev c Hc) as Hin.
    rewrite Hmr, Hoc1; [done | by intros -> |].
    intros Hp. by destruct (Hparent c Hp) as (_ & ? & _).
  - intros c Hc. pose proof (Hod c Hc) as Hin.
    destruct (Hkids c Hin) as (oc & Hoc & Hpc).
    rewrite Hmr; [| by intros -> |].
    + rewrite (vis_ahead _ _ _ _ _ _ _ H) by (by rewrite app_nil_r).
      by rewrite Hoc.
    + intros Hp. by destruct (Hparent c Hp) as (_ & ? & _).
  - intros p op pre post Hp Hop Hch Hpre.
    destruct (vis_parent _ _ _ _ _ _ _ H p Hp) as (op' & Hop' & Hop1).
    assert (op' = op) as -> by congruence.
    rewrite (Hmp p _ Hp Hop1). cbn [default set_children _children].
    rewrite Hch. rewrite <- !app_assoc. cbn [app].
    rewrite splice_indexOf by done. done.
Qed.

End disconnected.

(** ** terminate, disconnect and restart *)

Ltac wred :=
  unfold enqueue, upd_store, set_microtasks, set_heap, set_timers, pending_cell;
  cbn [store heap next_pid microtasks timers app state reactions elements
       fmap list_fmap alloc fst snd].

Section lifecycle.

Lemma fired_terminated_app s (es : list effect) (s' : Store) :
  trace s' = trace s ++ es →
  fired_terminated s' = fired_terminated s + length (filter is_terminated es).
Proof.
  intros H. unfold fired_terminated. by rewrite H, filter_app, length_app.
Qed.

Lemma filter_terminated_closes (cs : list nat) :
  filter is_terminated (ConnectionClose <$> cs) = [].
Proof.
  induction cs as [|c cs IH]; [done|].
  rewrite fmap_cons, filter_cons_False by (by intros []). exact IH.
Qed.

Lemma fired_terminated_stop_kill s :
  fired_terminated (_stopServer (_killRuntime s)) = fired_terminated s.
Proof.
  pose proof (trace_stopServer (_killRuntime s)) as Ht.
  pose proof (trace_killRuntime s) as Hk.
  rewrite Hk in Ht. rewrite <- app_assoc in Ht.
  rewrite (fired_terminated_app s _ _ Ht), !filter_app, filter_terminated_closes.
  destruct (_terminal (launcher s)), (_server (launcher (_killRuntime s))); simpl; lia.
Qed.

(** [terminate()] and [disconnect()] dispose the terminal and stop the
    server before they return, and their promise is fulfilled with
    [undefined] after one turn of the queue; neither fires the "terminated"
    notification. *)
Theorem terminate_stops_everything (h : Host) (fuel : nat) (w : World) :
  microtasks w = [] →
  let w1 := turn h (S (S fuel)) (Invoke Terminate) w in
  let w2 := turn h (S (S fuel)) (Invoke Disconnect) w in
  store w1 = _stopServer (_killRuntime (store w))
  ∧ status w1 (next_pid w) = Fulfilled VUndefined
  ∧ microtasks w1 = []
  ∧ _terminal (launcher (store w1)) = None
  ∧ _server (launcher (store w1)) = None
  ∧ _connections (launcher (store w1)) = []
  ∧ fired_terminated (store w1) = fired_terminated (store w)
  ∧ w2 = w1.
Proof.
  intros Hq w1 w2.
  assert (w2 = w1) as E by reflexivity.
  assert (store w1 = _stopServer (_killRuntime (store w))
          ∧ status w1 (next_pid w) = Fulfilled VUndefined
          ∧ microtasks w1 = []) as (Hs & Hst & Hm).
  { subst w1. unfold turn, invoke, call, terminate.
    cbn [alloc exec snd fst enqueue upd_store store heap next_pid microtasks
         timers set_microtasks].
    rewrite Hq. cbn [app].
    erewrite drain_cons by reflexivity.
    cbn [run_job exec resolve set_microtasks store heap next_pid microtasks timers].
    erewrite settle_fulfilled by (cbn [heap]; first [apply lookup_insert_eq | done]).
    rewrite drain_nil by done.
    split_and!; [done | | done].
    unfold status, promise, enqueue, set_heap, upd_store, set_microtasks.
    cbn [heap]. by rewrite lookup_insert_eq. }
  split_and!; [done | done | done | | | | | done]; rewrite Hs.
  - rewrite _stopServer_eq. cbn [launcher set_connections set_server _terminal].
    apply terminal_killRuntime.
  - apply server_stopServer.
  - apply connections_stopServer.
  - apply fired_terminated_stop_kill.
Qed.

Lemma launchParams_killRuntime s :
  _launchParams (launcher (_killRuntime s)) = _launchParams (launcher s).
Proof. unfold _killRuntime. by destruct (_terminal (launcher s)). Qed.

Lemma isRestarting_killRuntime s :
  _isRestarting (launcher (_killRuntime s)) = _isRestarting (launcher s).
Proof. unfold _killRuntime. by destruct (_terminal (launcher s)). Qed.

Lemma server_killRuntime s :
  _server (launcher (_killRuntime s)) = _server (launcher s).
Proof. unfold _killRuntime. by destruct (_terminal (launcher s)). Qed.

Lemma counter_killRuntime s : counter (_killRuntime s) = counter s.
Proof. unfold _killRuntime. by destruct (_terminal (launcher s)). Qed.

Lemma launchParams_stopServer s :
  _launchParams (launcher (_stopServer s)) = _launchParams (launcher s).
Proof. by rewrite _stopServer_eq. Qed.

Lemma launchParams_startServer h s :
  _launchParams (launcher (_startServer h s)) = _launchParams (launcher s).
Proof. done. Qed.

(** [_relaunch()] before any [launch()] has stored its parameters: the
    terminal is disposed and the function throws at [this._launchParams!]. *)
Lemma relaunch_without_params h self w :
  _launchParams (launcher (store w)) = None →
  exec (_relaunch h) (Some self) w
  = settle self (Rejected TypeError) (upd_store _killRuntime w).
Proof.
  intros H. unfold _relaunch. cbn [exec upd_store store].
  by rewrite launchParams_killRuntime, H.
Qed.

(** [restart()] on a launcher that was never launched.  The server is
    restarted, then [_relaunch()] throws a [TypeError] at
    [this._launchParams!]: the promise of [restart()] is rejected with it
    and the line that resets [_isRestarting] is never reached.  The launcher
    stays in the restarting state, with the new server listening; a process
    exit detected from then on neither stops the server nor fires the
    "terminated" notification. *)
Theorem restart_before_launch_is_rejected (h : Host) (fuel : nat) (w : World) :
  microtasks w = [] →
  _launchParams (launcher (store w)) = None →
  let w1 := turn h (S (S (S fuel))) (Invoke Restart) w in
  status w1 (next_pid w) = Rejected TypeError
  ∧ microtasks w1 = []
  ∧ store w1
    = _killRuntime
        (_startServer h
           (_stopServer
              (_killRuntime (upd_launcher (set_isRestarting true) (store w)))))
  ∧ _isRestarting (launcher (store w1)) = true
  ∧ _server (launcher (store w1))
    = Some (path_join h (pipePrefix h)
              (socket_name h (pre_increment (counter (store w)))))
  ∧ exec on_exit None w1 = w1.
Proof.
  intros Hq Hlp w1.
  assert (status w1 (next_pid w) = Rejected TypeError
          ∧ microtasks w1 = []
          ∧ store w1
            = _killRuntime
                (_startServer h
                   (_stopServer
                      (_killRuntime
                         (upd_launcher (set_isRestarting true) (store w))))))
    as (Hst & Hm & Hs).
  { subst w1. unfold turn, invoke, call, restart.
    cbn [alloc exec snd fst]. wred. rewrite Hq. cbn [app].
    erewrite drain_cons by reflexivity.
    cbn [run_job exec]. wred.
    rewrite relaunch_without_params
      by (cbn [store];
          by rewrite launchParams_startServer, launchParams_stopServer,
            launchParams_killRuntime).
    wred.
    erewrite settle_rejected by (wred; first [apply lookup_insert_eq | done]).
    wred.
    erewrite subscribe_rejected by (wred; first [apply lookup_insert_eq | done]).
    wred.
    erewrite drain_cons by reflexivity.
    cbn [run_job]. wred.
    erewrite settle_rejected
      by (wred; heap_norm; reflexivity).
    wred. rewrite drain_nil by done.
    split_and!; [| done | done].
    unfold status, promise. cbn [heap]. by rewrite lookup_insert_eq. }
  assert (_isRestarting (launcher (store w1)) = true) as Hr.
  { rewrite Hs, isRestarting_killRuntime.
    change (_isRestarting (launcher (_startServer h ?x)))
      with (_isRestarting (launcher x)).
    rewrite _stopServer_eq. cbn [launcher set_connections set_server _isRestarting].
    by rewrite isRestarting_killRuntime. }
  split_and!; try done.
  - rewrite Hs, server_killRuntime. unfold _startServer.
    cbn [launcher emit upd_launcher set_counter set_server set_pipe _server counter].
    by rewrite _stopServer_eq, counter_killRuntime.
  - unfold on_exit. cbn [exec]. by rewrite Hr.
Qed.

End lifecycle.

(** ** detach, and attaching again *)

Ltac trace_solve :=
  cbn [store trace]; rewrite <- ?app_assoc; reflexivity.

Section detach.

(** [detach()] on a target that is not attached, its queue idle: no remote
    call is made, the target stays detached, the caller's promise is
    fulfilled with [undefined] and the queue is idle again on a new
    fulfilled promise. *)
Theorem detach_when_not_attached (h : Host) (w : World) (this : ref)
    (o : NodeTarget) (v : value) :
  microtasks w = [] →
  objs (store w) !! this = Some o →
  _attached o = false →
  status w (_serialize o) = Fulfilled v →
  _serialize o < next_pid w →
  let p := next_pid w in
  let d := 1 + next_pid w in
  let w1 := turn h 64 (Invoke (Detach this)) w in
  trace (store w1) = trace (store w)
  ∧ status w1 p = Fulfilled VUndefined
  ∧ target (store w1) this = set_serialize d o
  ∧ status w1 d = Fulfilled VUndefined
  ∧ microtasks w1 = [].
Proof.
  intros Hq Ho Ha Hs Hlt.
  intros p d w1.
  destruct w as [s hp n q ts].
  cbn [microtasks store next_pid heap] in Hq, Ho, Hlt, p, d. subst q.
  unfold status, promise in Hs. cbn [heap] in Hs.
  destruct (hp !! _serialize o) as [[st rs es]|] eqn:Hc; cbn in Hs;
    [subst st|done].
  eassert (∀ P : World → Prop, P _ → P w1) as E1.
  { intros P HP. subst w1. run_with Ha. exact HP. }
  subst p d. clearbody w1.
  split_and!.
  - pattern w1. apply E1. reflexivity.
  - pattern w1. apply E1. erewrite status_lookup by lookup_solver. reflexivity.
  - pattern w1. apply E1. erewrite target_lookup by lookup_solver.
    by destruct o.
  - pattern w1. apply E1. erewrite status_lookup by lookup_solver. reflexivity.
  - pattern w1. apply E1. reflexivity.
Qed.


(** [detach()] on an attached target, its queue idle.  The remote detach
    call is issued, but nothing waits for it: the caller's promise and the
    queue are fulfilled while the call is still unanswered and [attached]
    is still true.  When the call succeeds the target becomes detached;
    when it fails the target stays attached and the failure reaches neither
    the caller nor the queue, only the promise of [_doDetach()] that nobody
    holds. *)
Theorem detach_returns_before_the_remote_call (h : Host) (w : World)
    (this : ref) (o : NodeTarget) (v answer e : value) :
  microtasks w = [] →
  objs (store w) !! this = Some o →
  _attached o = true →
  status w (_serialize o) = Fulfilled v →
  _serialize o < next_pid w →
  let p := next_pid w in
  let d := 1 + next_pid w in
  let doDetach := 3 + next_pid w in
  let x := 4 + next_pid w in
  let w1 := turn h 64 (Invoke (Detach this)) w in
  let ok := turn h 64 (Settle x (Fulfilled answer)) w1 in
  let ko := turn h 64 (Settle x (Rejected e)) w1 in
  trace (store w1)
  = trace (store w) ++ [Request (DetachFromTarget (_cdp o) (_targetId o)) x]
  ∧ status w1 x = Pending
  ∧ status w1 p = Fulfilled VUndefined
  ∧ target (store w1) this = set_serialize d o
  ∧ status w1 d = Fulfilled VUndefined
  ∧ microtasks w1 = []
  ∧ target (store ok) this = set_attached false (set_serialize d o)
  ∧ status ok doDetach = Fulfilled VUndefined
  ∧ target (store ko) this = set_serialize d o
  ∧ status ko doDetach = Rejected e
  ∧ status ko p = Fulfilled VUndefined
  ∧ status ko d = Fulfilled VUndefined
  ∧ trace (store ko) = trace (store w1)
  ∧ microtasks ko = [].
Proof.
  intros Hq Ho Ha Hs Hlt.
  intros p d doDetach x w1 ok ko.
  destruct w as [s hp n q ts].
  cbn [microtasks store next_pid heap] in Hq, Ho, Hlt, p, d, doDetach, x. subst q.
  unfold status, promise in Hs. cbn [heap] in Hs.
  destruct (hp !! _serialize o) as [[st rs es]|] eqn:Hc; cbn in Hs;
    [subst st|done].
  eassert (∀ P : World → Prop, P _ → P w1) as E1.
  { intros P HP. subst w1. run_with Ha. exact HP. }
  eassert (∀ P : World → Prop, P _ → P ok) as Eok.
  { intros P HP. subst ok. pattern w1. apply E1. run_with Ha. exact HP. }
  eassert (∀ P : World → Prop, P _ → P ko) as Eko.
  { intros P HP. subst ko. pattern w1. apply E1. run_with Ha. exact HP. }
  subst p d doDetach x. clearbody w1 ok ko.
  split_and!.
  - pattern w1. apply E1. trace_solve.
  - pattern w1. apply E1. erewrite status_lookup by lookup_solver. reflexivity.
  - pattern w1. apply E1. erewrite status_lookup by lookup_solver. reflexivity.
  - pattern w1. apply E1. erewrite target_lookup by lookup_solver.
    by destruct o.
  - pattern w1. apply E1. erewrite status_lookup by lookup_solver. reflexivity.
  - pattern w1. apply E1. reflexivity.
  - pattern ok. apply Eok. erewrite target_lookup by lookup_solver.
    by destruct o.
  - pattern ok. apply Eok. erewrite status_lookup by lookup_solver. reflexivity.
  - pattern ko. apply Eko. erewrite target_lookup by lookup_solver.
    by destruct o.
  - pattern ko. apply Eko. erewrite status_lookup by lookup_solver. reflexivity.
  - pattern ko. apply Eko. erewrite status_lookup by lookup_solver. reflexivity.
  - pattern ko. apply Eko. erewrite status_lookup by lookup_solver. reflexivity.
  - pattern ko. apply Eko. pattern w1. apply E1. reflexivity.
  - pattern ko. apply Eko. reflexivity.
Qed.


Lemma attach_answered (h : Host) (w : World) (this : ref)
    (o : NodeTarget) (v answer : value) :
  microtasks w = [] →
  objs (store w) !! this = Some o →
  _attached o = false →
  status w (_serialize o) = Fulfilled v →
  _serialize o < next_pid w →
  let n := next_pid w in
  let w1 := turn h 64 (Invoke (Attach this)) w in
  let w2 := turn h 64 (Settle (4 + n) (Fulfilled answer)) w1 in
  status w2 n = Fulfilled (VCdpApi (_cdp o))
  ∧ objs (store w2) !! this
    = Some (set_serialize (1 + n)
              (set_attached true (set_waitingForDebugger false o)))
  ∧ status w2 (1 + n) = Fulfilled (VCdpApi (_cdp o))
  ∧ trace (store w2)
    = trace (store w)
      ++ [Request (AttachToTarget (_cdp o) (_targetId o)) (4 + n);
          RuntimeOn (_cdp o) "executionContextCreated";
          RuntimeOn (_cdp o) "executionContextDestroyed"]
  ∧ next_pid w2 = 5 + n
  ∧ microtasks w2 = [].
Proof.
  intros Hq Ho Ha Hs Hlt.
  intros n w1 w2.
  destruct w as [s hp n0 q ts].
  cbn [microtasks store next_pid heap] in Hq, Ho, Hlt, n. subst q.
  unfold status, promise in Hs. cbn [heap] in Hs.
  destruct (hp !! _serialize o) as [[st rs es]|] eqn:Hc; cbn in Hs;
    [subst st|done].
  eassert (∀ P : World → Prop, P _ → P w1) as E1.
  { intros P HP. subst w1 n. run_with Ha. exact HP. }
  eassert (∀ P : World → Prop, P _ → P w2) as E2.
  { intros P HP. subst w2 n. pattern w1. apply E1. run_with Ha. exact HP. }
  subst n. clearbody w1 w2.
  split_and!.
  - pattern w2. apply E2. erewrite status_lookup by lookup_solver. reflexivity.
  - pattern w2. apply E2. world_cbn. heap_norm. rewrite Ho.
    cbn [fmap option_fmap option_map]. by destruct o.
  - pattern w2. apply E2. erewrite status_lookup by lookup_solver. reflexivity.
  - pattern w2. apply E2. trace_solve.
  - pattern w2. apply E2. reflexivity.
  - pattern w2. apply E2. reflexivity.
Qed.

Lemma detach_answered (h : Host) (w : World) (this : ref)
    (o : NodeTarget) (v answer : value) :
  microtasks w = [] →
  objs (store w) !! this = Some o →
  _attached o = true →
  status w (_serialize o) = Fulfilled v →
  _serialize o < next_pid w →
  let n := next_pid w in
  let w1 := turn h 64 (Invoke (Detach this)) w in
  let w2 := turn h 64 (Settle (4 + n) (Fulfilled answer)) w1 in
  status w2 n = Fulfilled VUndefined
  ∧ objs (store w2) !! this
    = Some (set_attached false (set_serialize (1 + n) o))
  ∧ status w2 (1 + n) = Fulfilled VUndefined
  ∧ trace (store w2)
    = trace (store w)
      ++ [Request (DetachFromTarget (_cdp o) (_targetId o)) (4 + n)]
  ∧ next_pid w2 = 5 + n
  ∧ microtasks w2 = [].
Proof.
  intros Hq Ho Ha Hs Hlt.
  intros n w1 w2.
  destruct w as [s hp n0 q ts].
  cbn [microtasks store next_pid heap] in Hq, Ho, Hlt, n. subst q.
  unfold status, promise in Hs. cbn [heap] in Hs.
  destruct (hp !! _serialize o) as [[st rs es]|] eqn:Hc; cbn in Hs;
    [subst st|done].
  eassert (∀ P : World → Prop, P _ → P w1) as E1.
  { intros P HP. subst w1 n. run_with Ha. exact HP. }
  eassert (∀ P : World → Prop, P _ → P w2) as E2.
  { intros P HP. subst w2 n. pattern w1. apply E1. run_with Ha. exact HP. }
  subst n. clearbody w1 w2.
  split_and!.
  - pattern w2. apply E2. erewrite status_lookup by lookup_solver. reflexivity.
  - pattern w2. apply E2. world_cbn. heap_norm. rewrite Ho.
    cbn [fmap option_fmap option_map]. by destruct o.
  - pattern w2. apply E2. erewrite status_lookup by lookup_solver. reflexivity.
  - pattern w2. apply E2. trace_solve.
  - pattern w2. apply E2. reflexivity.
  - pattern w2. apply E2. reflexivity.
Qed.

(** Attach, detach, attach again, each remote call answered before the
    next method is called.  After the detach the target can be attached
    again ([canAttach]) and the second [attach()] makes a new remote call
    and resolves to the [Cdp.Api] handle.  [waitingForDebugger], cleared by
    the first attach, stays false; and every successful attach subscribes
    two handlers to the [Runtime] events, which no detach removes. *)
Theorem attach_detach_attach (h : Host) (w : World) (this : ref)
    (o : NodeTarget) (v a1 a2 a3 : value) :
  microtasks w = [] →
  objs (store w) !! this = Some o →
  _attached o = false →
  status w (_serialize o) = Fulfilled v →
  _serialize o < next_pid w →
  let n := next_pid w in
  let w1 := turn h 64 (Settle (4 + n) (Fulfilled a1))
              (turn h 64 (Invoke (Attach this)) w) in
  let w2 := turn h 64 (Settle (9 + n) (Fulfilled a2))
              (turn h 64 (Invoke (Detach this)) w1) in
  let w3 := turn h 64 (Settle (14 + n) (Fulfilled a3))
              (turn h 64 (Invoke (Attach this)) w2) in
  status w1 n = Fulfilled (VCdpApi (_cdp o))
  ∧ Target.canDetach (store w1) this = true
  ∧ Target.canAttach (store w2) this = true
  ∧ Target.waitingForDebugger (store w2) this = false
  ∧ status w3 (10 + n) = Fulfilled (VCdpApi (_cdp o))
  ∧ Target.canAttach (store w3) this = false
  ∧ trace (store w3)
    = trace (store w)
      ++ [Request (AttachToTarget (_cdp o) (_targetId o)) (4 + n);
          RuntimeOn (_cdp o) "executionContextCreated";
          RuntimeOn (_cdp o) "executionContextDestroyed";
          Request (DetachFromTarget (_cdp o) (_targetId o)) (9 + n);
          Request (AttachToTarget (_cdp o) (_targetId o)) (14 + n);
          RuntimeOn (_cdp o) "executionContextCreated";
          RuntimeOn (_cdp o) "executionContextDestroyed"]
  ∧ microtasks w3 = [].
Proof.
  intros Hq Ho Ha Hs Hlt n w1 w2 w3.
  destruct (attach_answered h w this o v a1 Hq Ho Ha Hs Hlt)
    as (S1 & O1 & D1 & T1 & N1 & Q1).
  fold n in S1, O1, D1, T1, N1. fold w1 in S1, O1, D1, T1, N1, Q1.
  set (o1 := set_serialize (1 + n)
               (set_attached true (set_waitingForDebugger false o))) in *.
  assert (_serialize o1 = 1 + n ∧ _attached o1 = true
          ∧ _cdp o1 = _cdp o ∧ _targetId o1 = _targetId o
          ∧ _waitingForDebugger o1 = false)
    as (Es1 & Ea1 & Ec1 & Et1 & Ew1) by by destruct o.
  assert (status w1 (_serialize o1) = Fulfilled (VCdpApi (_cdp o))) as Hs1
    by by rewrite Es1.
  assert (_serialize o1 < next_pid w1) as Hlt1 by (rewrite Es1, N1; lia).
  destruct (detach_answered h w1 this o1 _ a2 Q1 O1 Ea1 Hs1 Hlt1)
    as (S2 & O2 & D2 & T2 & N2 & Q2).
  rewrite N1 in S2, O2, D2, T2, N2, Q2.
  change (4 + (5 + n)) with (9 + n) in *.
  change (1 + (5 + n)) with (6 + n) in *.
  change (5 + (5 + n)) with (10 + n) in *.
  fold w2 in S2, O2, D2, T2, N2, Q2.
  set (o2 := set_attached false (set_serialize (6 + n) o1)) in *.
  assert (_serialize o2 = 6 + n ∧ _attached o2 = false
          ∧ _cdp o2 = _cdp o ∧ _targetId o2 = _targetId o
          ∧ _waitingForDebugger o2 = false)
    as (Es2 & Ea2 & Ec2 & Et2 & Ew2) by by destruct o.
  assert (status w2 (_serialize o2) = Fulfilled VUndefined) as Hs2
    by by rewrite Es2.
  assert (_serialize o2 < next_pid w2) as Hlt2 by (rewrite Es2, N2; lia).
  destruct (attach_answered h w2 this o2 _ a3 Q2 O2 Ea2 Hs2 Hlt2)
    as (S3 & O3 & D3 & T3 & N3 & Q3).
  rewrite N2 in S3, O3, D3, T3, N3, Q3.
  change (4 + (10 + n)) with (14 + n) in *.
  change (1 + (10 + n)) with (11 + n) in *.
  fold w3 in S3, O3, D3, T3, N3, Q3.
  unfold Target.canDetach, Target.canAttach, Target.waitingForDebugger, target.
  rewrite O1, O2, O3. cbn [default from_option id].
  split_and!.
  - exact S1.
  - by rewrite Ea1.
  - by rewrite Ea2.
  - exact Ew2.
  - by rewrite S3, Ec2.
  - by destruct o.
  - rewrite T3, T2, T1, Ec1, Et1, Ec2, Et2, <- !app_assoc. reflexivity.
  - exact Q3.
Qed.

End detach.

(** ** A connection is accepted and announces its target *)

Section sessions.

(** The server accepts a connection: the connection is recorded at once, so
    that [_stopServer()] closes it even if no target is ever announced, and
    a session waits for the first ['targetCreated'] event.  When the event
    arrives the constructor runs on the store as it then is, with a fresh
    fulfilled promise as the target's queue, and the change notification
    fires once after it. *)
Theorem startSession_registers_target (h : Host) (w : World) (c : nat)
    (targetInfo : TargetInfo) :
  microtasks w = [] →
  let n := next_pid w in
  let cdp := next_session (store w) in
  let w1 := turn h 64 (Accept c) w in
  let w2 := turn h 64 (Settle (1 + n) (Fulfilled (VTargetCreated targetInfo))) w1 in
  _connections (launcher (store w1)) = _connections (launcher (store w)) ++ [c]
  ∧ trace (store w1) = trace (store w) ++ [Request (TargetCreated cdp) (1 + n)]
  ∧ _targets (launcher (store w1)) = _targets (launcher (store w))
  ∧ objs (store w1) = objs (store w)
  ∧ status w1 n = Pending
  ∧ microtasks w1 = []
  ∧ store w2
    = emit FireTargetListChanged
        (NodeTarget_new h (2 + n) c cdp targetInfo (store w1)).2
  ∧ status w2 (2 + n) = Fulfilled VUndefined
  ∧ status w2 n = Fulfilled VUndefined
  ∧ next_pid w2 = 3 + n
  ∧ microtasks w2 = [].
Proof.
  intros Hq n cdp w1 w2.
  eassert (w1 = {| store :=
                    emit (Request (TargetCreated cdp) (1 + n))
                      (set_next_session (S cdp)
                         (upd_launcher
                            (λ l, set_connections (_connections l ++ [c]) l)
                            (store w)));
                  heap := <[1 + n := {| state := Pending;
                                        reactions := [RCont _ n];
                                        elements := [] |}]>
                            (<[1 + n := pending_cell]>
                               (<[n := pending_cell]> (heap w)));
                  next_pid := 2 + n; microtasks := []; timers := timers w |})
    as E1.
  { subst w1. unfold turn, call, _startSession.
    cbn [alloc exec snd fst]. wred.
    erewrite subscribe_pending by (wred; first [apply lookup_insert_eq | done]).
    wred. rewrite Hq. rewrite drain_nil by done. reflexivity. }
  assert (w2 = {| store :=
                    emit FireTargetListChanged
                      (NodeTarget_new h (2 + n) c cdp targetInfo (store w1)).2;
                  heap := <[n := {| state := Fulfilled VUndefined;
                                    reactions := []; elements := [] |}]>
                            (<[2 + n := {| state := Fulfilled VUndefined;
                                           reactions := []; elements := [] |}]>
                               (<[1 + n := {| state := Fulfilled
                                                (VTargetCreated targetInfo);
                                              reactions := [];
                                              elements := [] |}]>
                                  (heap w1)));
                  next_pid := 3 + n; microtasks := []; timers := timers w |})
    as E2.
  { subst w2. rewrite E1. unfold turn.
    erewrite settle_fulfilled by (wred; first [apply lookup_insert_eq | done]).
    wred. erewrite drain_cons by reflexivity.
    cbn [run_job exec alloc resolve]. wred.
    erewrite settle_fulfilled
      by (wred; heap_norm; reflexivity).
    wred. rewrite drain_nil by done. reflexivity. }
  rewrite E2. rewrite E1.
  cbn [store heap next_pid microtasks launcher emit set_next_session upd_launcher
       set_connections _connections _targets trace objs].
  unfold status, promise. cbn [heap].
  split_and!; try done.
  - by rewrite lookup_insert_ne, lookup_insert_ne, lookup_insert_eq by lia.
  - by rewrite lookup_insert_ne, lookup_insert_eq by lia.
  - by rewrite lookup_insert_eq.
Qed.

End sessions.

(** ** launch: the terminal *)

Section launching.

Lemma next_terminal_killRuntime s : next_terminal (_killRuntime s) = next_terminal s.
Proof. unfold _killRuntime. by destruct (_terminal (launcher s)). Qed.

Lemma rootPath_killRuntime s :
  _rootPath (launcher (_killRuntime s)) = _rootPath (launcher s).
Proof. unfold _killRuntime. by destruct (_terminal (launcher s)). Qed.

Lemma pipe_killRuntime s : _pipe (launcher (_killRuntime s)) = _pipe (launcher s).
Proof. unfold _killRuntime. by destruct (_terminal (launcher s)). Qed.

Lemma _buildEnv_set_terminal h t l : _buildEnv h (set_terminal t l) = _buildEnv h l.
Proof. reflexivity. Qed.

Lemma exec_relaunch_after_pid commandLine pid self (w : World) t :
  _terminal (launcher (store w)) = Some t →
  exec (relaunch_after_pid commandLine pid) (Some self) w
  = settle self (Fulfilled VUndefined)
      (upd_store
         (if String.eqb (or_else commandLine "") "" then id
          else emit (TerminalSendText t (or_else commandLine "")))
         (set_timers
            (timers w ++ [{| handler := exit_probe pid on_exit (length (timers w));
                             period := 1000; active := true |}])
            (upd_store (emit (TerminalShow t)) w))).
Proof.
  intros Ht. unfold relaunch_after_pid. cbn [exec]. rewrite Ht.
  cbn [exec]. unfold onProcessExit. cbn [exec].
  destruct (String.eqb (or_else commandLine "") "") eqn:E; cbn [negb exec resolve].
  - by destruct w.
  - cbn [store upd_store set_timers emit launcher]. rewrite Ht.
    cbn [exec resolve]. reflexivity.
Qed.

(** [launch(params)] with a command, on a launcher whose blocker is
    fulfilled.  The parameters are stored, a server is started (a server
    already listening is not closed), the terminal of an earlier launch is
    disposed, and a terminal is created, named after the command or
    "Debugger terminal" when the command is the empty string, in [cwd] or
    else the root path, with the environment of [_buildEnv], which
    advertises the new server.  The call then waits for the terminal's
    process id.  When it arrives the terminal is shown, the exit watcher is
    registered, the command is sent unless it is empty, and the promise of
    [launch] is fulfilled. *)
Theorem launch_opens_terminal (h : Host) (w : World) (params : LaunchParams)
    (cmd : string) (v pidv : value) :
  microtasks w = [] →
  command params = Some cmd →
  status w (_launchBlocker (launcher (store w))) = Fulfilled v →
  _launchBlocker (launcher (store w)) < next_pid w →
  let n := next_pid w in
  let t := next_terminal (store w) in
  let pipe := path_join h (pipePrefix h)
                (socket_name h (pre_increment (counter (store w)))) in
  let name := if String.eqb cmd "" then "Debugger terminal" else cmd in
  let w1 := turn h 64 (Invoke (Launch params)) w in
  let w2 := turn h 64 (Settle (2 + n) (Fulfilled pidv)) w1 in
  ∃ e,
    _buildEnv h (launcher (store w1)) = Some e
    ∧ e !! "NODE_INSPECTOR_IPC" = Some (Some pipe)
    ∧ trace (store w1)
      = trace (store w) ++ [ServerListen pipe]
        ++ match _terminal (launcher (store w)) with
           | Some t0 => [TerminalDispose t0]
           | None => []
           end
        ++ [CreateTerminal t name
              (or_else_opt (cwd params) (_rootPath (launcher (store w)))) e;
            Request (ProcessId t) (2 + n)]
    ∧ status w1 n = Pending
    ∧ microtasks w1 = []
    ∧ timers w1 = timers w
    ∧ _terminal (launcher (store w1)) = Some t
    ∧ _server (launcher (store w1)) = Some pipe
    ∧ _launchParams (launcher (store w1)) = Some params
    ∧ trace (store w2)
      = trace (store w1) ++ [TerminalShow t]
        ++ (if String.eqb cmd "" then [] else [TerminalSendText t cmd])
    ∧ status w2 n = Fulfilled VUndefined
    ∧ length (timers w2) = S (length (timers w))
    ∧ watcher_active w2 (length (timers w)) = true
    ∧ microtasks w2 = [].
Proof.
  intros Hq Hc Hb Hlt n t pipe name w1 w2.
  unfold status, promise in Hb.
  destruct (heap w !! _launchBlocker (launcher (store w))) as [[st rs es]|] eqn:Hcell;
    cbn in Hb; [subst st|done].
  set (s1 := _killRuntime
               (_startServer h
                  (upd_launcher (set_launchParams (Some params)) (store w)))).
  assert (_launchParams (launcher s1) = Some params) as Hlp.
  { unfold s1. by rewrite launchParams_killRuntime. }
  destruct (_buildEnv_lookup h (launcher s1) params Hlp) as (e & He & Hipc & _).
  assert (next_terminal s1 = t) as Ht.
  { unfold s1. by rewrite next_terminal_killRuntime. }
  assert (_rootPath (launcher s1) = _rootPath (launcher (store w))) as Hroot.
  { unfold s1. by rewrite rootPath_killRuntime. }
  assert (_pipe (launcher s1) = Some pipe) as Hpipe.
  { unfold s1. by rewrite pipe_killRuntime. }
  assert (_server (launcher s1) = Some pipe) as Hserver.
  { unfold s1. by rewrite server_killRuntime. }
  assert (trace s1
          = trace (store w) ++ [ServerListen pipe]
            ++ match _terminal (launcher (store w)) with
               | Some t0 => [TerminalDispose t0]
               | None => []
               end) as Htr.
  { unfold s1. rewrite trace_killRuntime.
    change (trace (_startServer h ?x))
      with (trace x ++ [ServerListen
                          (path_join h (pipePrefix h)
                             (socket_name h (pre_increment (counter x))))]).
    by rewrite <- app_assoc. }
  assert (or_else (Some cmd) "Debugger terminal" = name) as Hname by done.
  set (s2 := emit (Request (ProcessId t) (2 + n))
               (createTerminal name
                  (or_else_opt (cwd params) (_rootPath (launcher (store w)))) e s1)).
  eassert (w1 = {| store := s2;
                   heap := <[S n := {| state := Pending;
                                       reactions := [RCont _ n];
                                       elements := [] |}]>
                             (<[2 + n := {| state := Pending;
                                            reactions :=
                                              [RCont (relaunch_after_pid (Some cmd))
                                                 (S n)];
                                            elements := [] |}]>
                                (<[2 + n := pending_cell]>
                                   (<[S n := pending_cell]>
                                      (<[n := pending_cell]> (heap w)))));
                   next_pid := 3 + n; microtasks := []; timers := timers w |})
    as E1.
  { subst w1. unfold turn, invoke, call, launch. rewrite Hc.
    rewrite (bool_decide_eq_true_2 (is_Some (Some cmd))) by eauto.
    cbn [negb alloc exec snd fst]. wred.
    erewrite subscribe_fulfilled
      by (wred; first [rewrite lookup_insert_ne by lia; exact Hcell | done]).
    wred. rewrite Hq. cbn [app].
    erewrite drain_cons by reflexivity.
    cbn [run_job exec]. wred.
    erewrite drain_cons by reflexivity.
    cbn [run_job exec]. wred.
    unfold _relaunch at 1. cbn [exec]. wred. fold s1.
    rewrite Hlp, He. rewrite Hc. cbn [exec]. wred.
    unfold createTerminal at 1.
    cbn [launcher upd_launcher emit set_next_terminal set_terminal _terminal exec].
    wred.
    erewrite (subscribe_pending (S (S (next_pid w))))
      by (wred; first [apply lookup_insert_eq | done]).
    wred.
    erewrite (subscribe_pending (S (next_pid w)))
      by (wred; heap_norm; reflexivity).
    wred. rewrite drain_nil by done.
    rewrite Hname, Ht, Hroot. reflexivity. }
  assert (_terminal (launcher s2) = Some t) as Hterm.
  { unfold s2, createTerminal. cbn [launcher emit upd_launcher set_terminal _terminal].
    by rewrite Ht. }
  assert (or_else (Some cmd) "" = cmd) as Hcmd.
  { unfold or_else. by destruct (String.eqb cmd "") eqn:E; [apply String.eqb_eq in E|]. }
  eassert (w2 = {| store :=
                     (if String.eqb cmd "" then id else emit (TerminalSendText t cmd))
                       (emit (TerminalShow t) s2);
                   heap := <[n := {| state := Fulfilled VUndefined;
                                     reactions := []; elements := [] |}]>
                             (<[S n := {| state := Fulfilled VUndefined;
                                          reactions := []; elements := [] |}]>
                                (<[2 + n := {| state := Fulfilled pidv;
                                               reactions := [];
                                               elements := [] |}]>
                                   (heap w1)));
                   next_pid := 3 + n; microtasks := [];
                   timers := timers w
                             ++ [{| handler := exit_probe pidv on_exit
                                                 (length (timers w));
                                    period := 1000; active := true |}] |})
    as E2.
  { subst w2. rewrite E1. unfold turn.
    erewrite settle_fulfilled by (wred; heap_norm; reflexivity).
    wred. erewrite drain_cons by reflexivity.
    cbn [run_job].
    rewrite (exec_relaunch_after_pid _ _ _ _ t) by exact Hterm.
    rewrite Hcmd. wred.
    erewrite settle_fulfilled by (wred; heap_norm; reflexivity).
    wred. erewrite drain_cons by reflexivity.
    cbn [run_job exec resolve]. wred.
    erewrite settle_fulfilled by (wred; heap_norm; reflexivity).
    wred. rewrite drain_nil by done. reflexivity. }
  assert (_buildEnv h (launcher s2) = Some e) as He2.
  { unfold s2, createTerminal.
    cbn [launcher emit upd_launcher set_next_terminal].
    rewrite _buildEnv_set_terminal. exact He. }
  assert (_server (launcher s2) = Some pipe) as Hserver2 by exact Hserver.
  assert (_launchParams (launcher s2) = Some params) as Hlp2 by exact Hlp.
  exists e. rewrite E2. rewrite E1.
  cbn [store heap next_pid microtasks timers].
  unfold status, promise, watcher_active. cbn [heap].
  split_and!;
    [exact He2 | | | | reflexivity | reflexivity | exact Hterm | exact Hserver2
     | exact Hlp2 | | | | | reflexivity].
  - by rewrite Hipc, Hpipe.
  - unfold s2, createTerminal. cbn [trace emit upd_launcher set_next_terminal].
    rewrite Htr, Ht. by rewrite <- !app_assoc.
  - by rewrite !lookup_insert_ne, lookup_insert_eq by lia.
  - destruct (String.eqb cmd ""); cbn [id emit trace]; by rewrite <- ?app_assoc, ?app_nil_r.
  - by rewrite lookup_insert_eq.
  - rewrite length_app. simpl. lia.
  - cbn [timers]. rewrite lookup_app_r, Nat.sub_diag by done. done.
Qed.

End launching.

(** ** Predictions without a predictor; the exit watcher; URLs *)

Section predictor.

(** A launcher constructed without a root path ([undefined] or the empty
    string) has no predictor, and without a predictor [predictBreakpoints]
    makes no request and leaves the launch blocker alone, however often it
    is called: the store is unchanged, and each call returns a promise that
    is already fulfilled. *)
Theorem predict_without_predictor (h : Host) (fuel : nat) (w : World)
    (ps : list nat) (params : nat) :
  _breakpointsPredictor (launcher (store w)) = false →
  microtasks w = [] →
  let w' := turns h fuel (Invoke ∘ PredictBreakpoints <$> ps) w in
  store w' = store w
  ∧ microtasks w' = []
  ∧ next_pid w' = length ps + next_pid w
  ∧ status (invoke h (PredictBreakpoints params) w') (next_pid w')
    = Fulfilled VUndefined
  ∧ (∀ b, _breakpointsPredictor (NodeLauncher_new None b) = false
          ∧ _breakpointsPredictor (NodeLauncher_new (Some "") b) = false).
Proof.
  intros Hp Hq w'. subst w'.
  assert (∀ n (w0 : World),
            _breakpointsPredictor (launcher (store w0)) = false →
            microtasks w0 = [] →
            turn h fuel (Invoke (PredictBreakpoints n)) w0
            = (alloc {| state := Fulfilled VUndefined; reactions := [];
                        elements := [] |} w0).2) as Hone.
  { intros n w0 Hp0 Hq0. unfold turn, invoke, predictBreakpoints.
    cbn [exec]. rewrite Hp0. cbn [negb exec alloc snd].
    by rewrite drain_nil. }
  assert (store (turns h fuel (Invoke ∘ PredictBreakpoints <$> ps) w) = store w
          ∧ microtasks (turns h fuel (Invoke ∘ PredictBreakpoints <$> ps) w) = []
          ∧ next_pid (turns h fuel (Invoke ∘ PredictBreakpoints <$> ps) w)
            = length ps + next_pid w) as (Hs & Hm & Hn).
  { revert w Hp Hq. induction ps as [|n ps IH]; intros w Hp Hq; [done|].
    unfold turns in *. cbn [fmap list_fmap foldl compose].
    rewrite Hone by done.
    destruct (IH (alloc {| state := Fulfilled VUndefined; reactions := [];
                           elements := [] |} w).2 Hp Hq) as (-> & -> & ->).
    cbn [alloc snd store next_pid length]. split_and!; [done | done | lia]. }
  split_and!; [done | done | done | | done].
  unfold invoke, predictBreakpoints. cbn [exec]. rewrite Hs, Hp.
  cbn [negb exec alloc snd]. unfold status, promise. cbn [heap].
  by rewrite lookup_insert_eq.
Qed.

End predictor.

Section exit_watcher.

(** The watcher that [_relaunch()] registers, when a probe first fails with
    anything but [EPERM]: the interval is cancelled; outside a restart the
    server and the connections are closed and the "terminated" notification
    fires, once, and during a restart nothing else happens.  The terminal
    is left in [_terminal].  Later ticks do nothing. *)
Theorem exit_watcher_fires_once (w : World) (i : nat) (pid : value) (ms : N)
    (probe : value → kill_result) (probes : list (value → kill_result)) :
  timers w !! i = Some {| handler := exit_probe pid on_exit i; period := ms;
                          active := true |} →
  ¬ benign pid probe →
  let w' := tick i probe w in
  store w'
  = (if _isRestarting (launcher (store w)) then store w
     else emit FireTerminated (_stopServer (store w)))
  ∧ fired_terminated (store w')
    = (if _isRestarting (launcher (store w)) then 0 else 1)
      + fired_terminated (store w)
  ∧ _terminal (launcher (store w')) = _terminal (launcher (store w))
  ∧ watcher_active w' i = false
  ∧ ticks i probes w' = w'.
Proof.
  intros Ht Hb w'.
  assert (watcher_active w' i = false
          ∧ store w'
            = (if _isRestarting (launcher (store w)) then store w
               else emit FireTerminated (_stopServer (store w))))
    as [Hoff Hs].
  { subst w'. unfold tick. rewrite Ht. cbn [active handler].
    unfold exit_probe, benign in *. destruct (probe pid) as [|code]; [tauto|].
    rewrite bool_decide_eq_false_2 by (intros ->; tauto).
    cbn [exec]. unfold on_exit. cbn [exec store set_timers].
    unfold watcher_active.
    destruct (_isRestarting (launcher (store w))); cbn [negb exec upd_store store
      set_timers timers];
      rewrite list_lookup_alter, decide_True, Ht by done; done. }
  split_and!; [done | | | done | by apply ticks_cancelled].
  - rewrite Hs. destruct (_isRestarting (launcher (store w))); [done|].
    rewrite (fired_terminated_app (store w)
               (match _server (launcher (store w)) with
                | Some path => [ServerClose path]
                | None => []
                end
                ++ (ConnectionClose <$> _connections (launcher (store w)))
                ++ [FireTerminated])).
    + rewrite !filter_app, filter_terminated_closes.
      destruct (_server (launcher (store w))); simpl; lia.
    + rewrite _stopServer_eq. cbn [emit trace]. by rewrite <- !app_assoc.
  - rewrite Hs. destruct (_isRestarting (launcher (store w))); [done|].
    by rewrite _stopServer_eq.
Qed.

End exit_watcher.

Section urls.

Variable absolutePathToFileUrl : string → option string.
Variable isValidUrl : string → bool.

Lemma or_else_cases (a : option string) (b : string) :
  or_else a b = b ∨ (a = Some (or_else a b) ∧ or_else a b ≠ "").
Proof.
  unfold or_else. destruct a as [u|]; [|by left].
  destruct (String.eqb u "") eqn:E; [by left|].
  right. split; [done|]. by apply String.eqb_neq.
Qed.

(** [scriptUrlToUrl] only consults the helper for an absolute path (a
    leading slash, or a drive letter on Windows) and falls back on the
    argument when the helper answers [undefined] or the empty string: the
    result is the argument or the helper's non-empty answer, it is empty
    only if the argument is, and off Windows a drive-letter path is returned
    as it is. *)
Theorem scriptUrlToUrl_falls_back (h : Host) (url : string) :
  let r := scriptUrlToUrl h absolutePathToFileUrl url in
  (r = url ∨ (absolutePathToFileUrl url = Some r ∧ r ≠ ""))
  ∧ (r = "" → url = "")
  ∧ (String.get 0 url ≠ Some "/"%char → platform h ≠ "win32" → r = url).
Proof.
  intros r. subst r. unfold scriptUrlToUrl. cbv zeta.
  split_and!.
  - destruct (_ || _); [apply or_else_cases | by left].
  - destruct (_ || _); [|done].
    destruct (or_else_cases (absolutePathToFileUrl url) url) as [-> | [_ ?]]; done.
  - intros H0 Hw.
    rewrite bool_decide_eq_false_2 by done.
    rewrite (proj2 (String.eqb_neq _ _)) by done. done.
Qed.

(** [rewriteSourceUrl] leaves its argument alone without a root path, for a
    URL outside the root and for a valid URL.  If every answer of
    [absolutePathToFileUrl] is a valid URL, rewriting twice is rewriting
    once. *)
Theorem rewriteSourceUrl_idempotent (rootPath : option string) (sourceUrl : string) :
  let rewrite_ := rewriteSourceUrl isValidUrl absolutePathToFileUrl rootPath in
  ((∀ p u, absolutePathToFileUrl p = Some u → isValidUrl u = true) →
   rewrite_ (rewrite_ sourceUrl) = rewrite_ sourceUrl)
  ∧ (rootPath = None ∨ rootPath = Some "" → rewrite_ sourceUrl = sourceUrl)
  ∧ (isValidUrl sourceUrl = true → rewrite_ sourceUrl = sourceUrl)
  ∧ (∀ r, rootPath = Some r → String.prefix r sourceUrl = false →
          rewrite_ sourceUrl = sourceUrl).
Proof.
  intros rewrite_. subst rewrite_. unfold rewriteSourceUrl.
  split_and!.
  - intros Hvalid. destruct rootPath as [r|]; [|done].
    destruct (negb (String.eqb r "") && String.prefix r sourceUrl
              && negb (isValidUrl sourceUrl)) eqn:E; [|by rewrite E].
    destruct (or_else_cases (absolutePathToFileUrl sourceUrl) sourceUrl)
      as [Ho | [Hu _]]; [rewrite Ho, E; exact Ho|].
    rewrite (Hvalid _ _ Hu). by rewrite !andb_false_r.
  - intros [-> | ->]; done.
  - intros ->. destruct rootPath; [|done]. by rewrite !andb_false_r.
  - intros r -> ->. by rewrite andb_false_r.
Qed.

End urls.

(** ** launch without a command or behind a failed prediction; restart *)

Section more_launching.

(** [launch(params)] when ['command' in params] is false: the call returns
    at once with a fulfilled promise, whatever the launch blocker, and the
    launcher is untouched: no parameters stored, no server, no terminal. *)
Theorem launch_without_command_returns (h : Host) (fuel : nat) (w : World)
    (params : LaunchParams) :
  microtasks w = [] →
  command params = None →
  let w1 := turn h fuel (Invoke (Launch params)) w in
  store w1 = store w
  ∧ status w1 (next_pid w) = Fulfilled VUndefined
  ∧ microtasks w1 = []
  ∧ timers w1 = timers w.
Proof.
  intros Hq Hc w1. subst w1. unfold turn, invoke, call, launch. rewrite Hc.
  rewrite (bool_decide_eq_false_2 (is_Some None)) by (by intros [? ?]).
  cbn [negb alloc exec snd fst resolve]. wred.
  erewrite settle_fulfilled by (wred; first [apply lookup_insert_eq | done]).
  wred. rewrite Hq. rewrite drain_nil by done.
  unfold status, promise. cbn [store heap microtasks timers].
  by rewrite lookup_insert_eq.
Qed.

(** [launch(params)] with a command when the launch blocker is rejected (a
    prediction before it failed): the call is rejected with the same reason
    and never gets past the wait: no parameters are stored, no server is
    started and no terminal is created. *)
Theorem launch_behind_failed_prediction (h : Host) (fuel : nat) (w : World)
    (params : LaunchParams) (cmd : string) (e : value) :
  microtasks w = [] →
  command params = Some cmd →
  status w (_launchBlocker (launcher (store w))) = Rejected e →
  _launchBlocker (launcher (store w)) < next_pid w →
  let w1 := turn h (S (S fuel)) (Invoke (Launch params)) w in
  store w1 = store w
  ∧ status w1 (next_pid w) = Rejected e
  ∧ microtasks w1 = []
  ∧ timers w1 = timers w.
Proof.
  intros Hq Hc Hb Hlt w1.
  unfold status, promise in Hb.
  destruct (heap w !! _launchBlocker (launcher (store w))) as [[st rs es]|] eqn:Hcell;
    cbn in Hb; [subst st|done].
  subst w1. unfold turn, invoke, call, launch. rewrite Hc.
  rewrite (bool_decide_eq_true_2 (is_Some (Some cmd))) by eauto.
  cbn [negb alloc exec snd fst]. wred.
  erewrite subscribe_rejected
    by (wred; first [rewrite lookup_insert_ne by lia; exact Hcell | done]).
  wred. rewrite Hq. cbn [app].
  erewrite drain_cons by reflexivity.
  cbn [run_job]. wred.
  erewrite settle_rejected by (wred; first [apply lookup_insert_eq | done]).
  wred. rewrite drain_nil by done.
  unfold status, promise. cbn [store heap microtasks timers].
  by rewrite lookup_insert_eq.
Qed.

(** [_relaunch()] up to its [await]: the terminal is replaced and the
    function waits for the process id of the new one. *)
Lemma exec_relaunch (h : Host) (self : pid) (w : World) (lp : LaunchParams)
    (e : gmap string (option string)) :
  _launchParams (launcher (store w)) = Some lp →
  _buildEnv h (launcher (_killRuntime (store w))) = Some e →
  exec (_relaunch h) (Some self) w
  = subscribe (next_pid w) (RCont (relaunch_after_pid (command lp)) self)
      {| store :=
           emit (Request (ProcessId (next_terminal (store w))) (next_pid w))
             (createTerminal (or_else (command lp) "Debugger terminal")
                (or_else_opt (cwd lp) (_rootPath (launcher (store w)))) e
                (_killRuntime (store w)));
         heap := <[next_pid w := pending_cell]> (heap w);
         next_pid := S (next_pid w);
         microtasks := microtasks w;
         timers := timers w |}.
Proof.
  intros Hlp He. unfold _relaunch. cbn [exec]. wred.
  rewrite launchParams_killRuntime, Hlp, He. cbn [exec]. wred.
  unfold createTerminal at 1.
  cbn [launcher upd_launcher emit set_next_terminal set_terminal _terminal exec].
  wred. by rewrite next_terminal_killRuntime, rootPath_killRuntime.
Qed.

Lemma killRuntime_noop s : _terminal (launcher s) = None → _killRuntime s = s.
Proof. intros H. unfold _killRuntime. by rewrite H. Qed.

(** [restart()] after a launch.  The terminal is disposed, the server and
    every connection are closed, a server is opened under the next name and
    a new terminal is created whose environment advertises it; the
    launcher is in the restarting state while [restart()] waits for the new
    terminal's process id, and leaves it when the id has arrived.
    [restart()] itself never fires the "terminated" notification. *)
Theorem restart_replaces_server_and_terminal (h : Host) (w : World)
    (params : LaunchParams) (pidv : value) :
  microtasks w = [] →
  _launchParams (launcher (store w)) = Some params →
  let n := next_pid w in
  let t := next_terminal (store w) in
  let pipe := path_join h (pipePrefix h)
                (socket_name h (pre_increment (counter (store w)))) in
  let w1 := turn h 64 (Invoke Restart) w in
  let w2 := turn h 64 (Settle (2 + n) (Fulfilled pidv)) w1 in
  ∃ e,
    _buildEnv h (launcher (store w1)) = Some e
    ∧ e !! "NODE_INSPECTOR_IPC" = Some (Some pipe)
    ∧ trace (store w1)
      = trace (store w)
        ++ match _terminal (launcher (store w)) with
           | Some t0 => [TerminalDispose t0]
           | None => []
           end
        ++ match _server (launcher (store w)) with
           | Some path => [ServerClose path]
           | None => []
           end
        ++ (ConnectionClose <$> _connections (launcher (store w)))
        ++ [ServerListen pipe;
            CreateTerminal t (or_else (command params) "Debugger terminal")
              (or_else_opt (cwd params) (_rootPath (launcher (store w)))) e;
            Request (ProcessId t) (2 + n)]
    ∧ _isRestarting (launcher (store w1)) = true
    ∧ status w1 n = Pending
    ∧ microtasks w1 = []
    ∧ _isRestarting (launcher (store w2)) = false
    ∧ status w2 n = Fulfilled VUndefined
    ∧ _server (launcher (store w2)) = Some pipe
    ∧ _terminal (launcher (store w2)) = Some t
    ∧ _connections (launcher (store w2)) = []
    ∧ fired_terminated (store w2) = fired_terminated (store w)
    ∧ microtasks w2 = [].
Proof.
  intros Hq Hlp n t pipe w1 w2.
  set (s0 := _killRuntime (upd_launcher (set_isRestarting true) (store w))).
  set (s4 := _startServer h (_stopServer s0)).
  assert (_terminal (launcher s0) = None) as Ht0
    by apply terminal_killRuntime.
  assert (trace s0
          = trace (store w)
            ++ match _terminal (launcher (store w)) with
               | Some t0 => [TerminalDispose t0]
               | None => []
               end) as Htr0.
  { unfold s0.
    by rewrite trace_killRuntime. }
  assert (_server (launcher s0) = _server (launcher (store w))
          ∧ _connections (launcher s0) = _connections (launcher (store w))
          ∧ counter s0 = counter (store w)
          ∧ next_terminal s0 = t
          ∧ _rootPath (launcher s0) = _rootPath (launcher (store w))
          ∧ _launchParams (launcher s0) = Some params
          ∧ _isRestarting (launcher s0) = true) as (Hsv0 & Hcn0 & Hc0 & Hnt0 & Hrp0 & Hlp0 & Hir0).
  { unfold s0, _killRuntime.
    destruct (_terminal (launcher (upd_launcher (set_isRestarting true) (store w))));
      by split_and!. }
  assert (s4 = {| counter := pre_increment (counter (store w));
                  launcher := set_server (Some pipe)
                                (set_pipe (Some pipe)
                                   (set_connections []
                                      (set_server None (launcher s0))));
                  objs := objs s0; next_ref := next_ref s0;
                  next_terminal := t; next_session := next_session s0;
                  onDisconnected := onDisconnected s0;
                  trace := trace (store w)
                           ++ match _terminal (launcher (store w)) with
                              | Some t0 => [TerminalDispose t0]
                              | None => []
                              end
                           ++ match _server (launcher (store w)) with
                              | Some path => [ServerClose path]
                              | None => []
                              end
                           ++ (ConnectionClose <$> _connections (launcher (store w)))
                           ++ [ServerListen pipe] |}) as Hs4.
  { unfold s4. rewrite _stopServer_eq. unfold _startServer.
    cbn [counter launcher emit upd_launcher set_counter trace objs next_ref
         next_terminal next_session onDisconnected].
    rewrite Hsv0, Hcn0, Hc0, Hnt0, Htr0.
    unfold emit, upd_launcher, set_counter.
    cbn [counter launcher trace objs next_ref next_terminal next_session
         onDisconnected].
    f_equal. by rewrite <- !app_assoc. }
  assert (_killRuntime s4 = s4) as Hk4.
  { apply killRuntime_noop. rewrite Hs4. exact Ht0. }
  assert (_launchParams (launcher s4) = Some params) as Hlp4
    by (rewrite Hs4; exact Hlp0).
  destruct (_buildEnv_lookup h (launcher s4) params Hlp4) as (e & He & Hipc & _).
  assert (_pipe (launcher s4) = Some pipe) as Hpipe by (by rewrite Hs4).
  assert (_rootPath (launcher s4) = _rootPath (launcher (store w))) as Hroot
    by (rewrite Hs4; exact Hrp0).
  assert (next_terminal s4 = t) as Hnt4 by (by rewrite Hs4).
  set (s5 := emit (Request (ProcessId t) (2 + n))
               (createTerminal (or_else (command params) "Debugger terminal")
                  (or_else_opt (cwd params) (_rootPath (launcher (store w)))) e s4)).
  eassert (w1 = {| store := s5;
                   heap := <[S n := {| state := Pending;
                                       reactions := [RCont _ n];
                                       elements := [] |}]>
                             (<[2 + n := {| state := Pending;
                                            reactions :=
                                              [RCont (relaunch_after_pid
                                                        (command params)) (S n)];
                                            elements := [] |}]>
                                (<[2 + n := pending_cell]>
                                   (<[S n := pending_cell]>
                                      (<[n := pending_cell]> (heap w)))));
                   next_pid := 3 + n; microtasks := []; timers := timers w |})
    as E1.
  { subst w1. unfold turn, invoke, call, restart.
    cbn [alloc exec snd fst]. wred. fold s0. fold s4.
    rewrite Hq. cbn [app].
    erewrite drain_cons by reflexivity.
    cbn [run_job exec]. wred.
    rewrite (exec_relaunch h _ _ params e)
      by (cbn [store]; first [exact Hlp4 | by rewrite Hk4]).
    cbn [store heap next_pid microtasks timers]. rewrite Hk4, Hnt4, Hroot.
    erewrite (subscribe_pending (S (S (next_pid w))))
      by (wred; first [apply lookup_insert_eq | done]).
    wred. cbn [exec]. wred.
    erewrite (subscribe_pending (S (next_pid w)))
      by (wred; heap_norm; reflexivity).
    wred. rewrite drain_nil by done. reflexivity. }
  assert (_terminal (launcher s5) = Some t) as Hterm.
  { unfold s5, createTerminal.
    cbn [launcher emit upd_launcher set_terminal _terminal]. by rewrite Hnt4. }
  set (s6 := upd_launcher (set_isRestarting false)
               ((if String.eqb (or_else (command params) "") "" then id
                 else emit (TerminalSendText t (or_else (command params) "")))
                  (emit (TerminalShow t) s5))).
  eassert (w2 = {| store := s6;
                   heap := <[n := {| state := Fulfilled VUndefined;
                                     reactions := []; elements := [] |}]>
                             (<[S n := {| state := Fulfilled VUndefined;
                                          reactions := []; elements := [] |}]>
                                (<[2 + n := {| state := Fulfilled pidv;
                                               reactions := [];
                                               elements := [] |}]>
                                   (heap w1)));
                   next_pid := 3 + n; microtasks := [];
                   timers := timers w
                             ++ [{| handler := exit_probe pidv on_exit
                                                 (length (timers w));
                                    period := 1000; active := true |}] |})
    as E2.
  { subst w2. rewrite E1. unfold turn.
    erewrite settle_fulfilled by (wred; heap_norm; reflexivity).
    wred. erewrite drain_cons by reflexivity.
    cbn [run_job].
    rewrite (exec_relaunch_after_pid _ _ _ _ t) by exact Hterm.
    wred.
    erewrite settle_fulfilled by (wred; heap_norm; reflexivity).
    wred. erewrite drain_cons by reflexivity.
    cbn [run_job exec resolve]. wred.
    erewrite settle_fulfilled by (wred; heap_norm; reflexivity).
    wred. rewrite drain_nil by done. reflexivity. }
  assert (_buildEnv h (launcher s5) = Some e) as He5.
  { unfold s5, createTerminal.
    cbn [launcher emit upd_launcher set_next_terminal].
    rewrite _buildEnv_set_terminal. exact He. }
  assert (trace s5
          = trace s4
            ++ [CreateTerminal t (or_else (command params) "Debugger terminal")
                  (or_else_opt (cwd params) (_rootPath (launcher (store w)))) e;
                Request (ProcessId t) (2 + n)]) as Htr5.
  { unfold s5, createTerminal. cbn [trace emit upd_launcher set_next_terminal].
    by rewrite Hnt4, <- app_assoc. }
  assert (launcher s6
          = set_isRestarting false (set_terminal (Some t) (launcher s4))) as Hl6.
  { unfold s6, s5, createTerminal.
    destruct (String.eqb (or_else (command params) "") "");
      cbn [id launcher emit upd_launcher set_next_terminal]; by rewrite Hnt4. }
  assert (trace s6
          = trace s5 ++ [TerminalShow t]
            ++ (if String.eqb (or_else (command params) "") "" then []
                else [TerminalSendText t (or_else (command params) "")])) as Htr6.
  { unfold s6. destruct (String.eqb (or_else (command params) "") "");
      cbn [id trace emit upd_launcher]; by rewrite <- ?app_assoc, ?app_nil_r. }
  exists e. rewrite E2. rewrite E1.
  cbn [store heap next_pid microtasks timers].
  unfold status, promise. cbn [heap].
  split_and!;
    [exact He5 | | | | | reflexivity | | | | | | | reflexivity].
  - by rewrite Hipc, Hpipe.
  - rewrite Htr5, Hs4. cbn [trace]. by rewrite <- !app_assoc.
  - unfold s5, createTerminal.
    cbn [launcher emit upd_launcher set_next_terminal set_terminal _isRestarting].
    rewrite Hs4. exact Hir0.
  - by rewrite !lookup_insert_ne, lookup_insert_eq by lia.
  - by rewrite Hl6.
  - by rewrite lookup_insert_eq.
  - rewrite Hl6, Hs4. done.
  - by rewrite Hl6.
  - rewrite Hl6, Hs4. done.
  - assert (trace s6
            = trace (store w)
              ++ (match _terminal (launcher (store w)) with
                  | Some t0 => [TerminalDispose t0]
                  | None => []
                  end
                  ++ match _server (launcher (store w)) with
                     | Some path => [ServerClose path]
                     | None => []
                     end
                  ++ (ConnectionClose <$> _connections (launcher (store w)))
                  ++ [ServerListen pipe;
                      CreateTerminal t
                        (or_else (command params) "Debugger terminal")
                        (or_else_opt (cwd params) (_rootPath (launcher (store w))))
                        e;
                      Request (ProcessId t) (2 + n); TerminalShow t]
                  ++ (if String.eqb (or_else (command params) "") "" then []
                      else [TerminalSendText t (or_else (command params) "")])))
      as Htr.
    { rewrite Htr6, Htr5, Hs4. cbn [trace]. by rewrite <- !app_assoc. }
    rewrite (fired_terminated_app _ _ _ Htr).
    rewrite !filter_app, filter_terminated_closes.
    destruct (_terminal (launcher (store w))), (_server (launcher (store w))),
      (String.eqb (or_else (command params) "") ""); simpl; lia.
Qed.

End more_launching.

(** ** predictBreakpoints: the new launch blocker *)

Section fan_in.

(** [predictBreakpoints(params)] on a launcher with a predictor whose
    launch blocker is fulfilled: the predictor is asked once and the launch
    blocker becomes a new promise, pending as long as the prediction is.
    It is fulfilled, with the two values, when the prediction is fulfilled,
    and rejected with the prediction's reason when the prediction is
    rejected. *)
Theorem predict_extends_blocker (h : Host) (w : World) (params : nat)
    (v0 v e : value) :
  microtasks w = [] →
  _breakpointsPredictor (launcher (store w)) = true →
  status w (_launchBlocker (launcher (store w))) = Fulfilled v0 →
  _launchBlocker (launcher (store w)) < next_pid w →
  let n := next_pid w in
  let w1 := turn h 64 (Invoke (PredictBreakpoints params)) w in
  let ok := turn h 64 (Settle n (Fulfilled v)) w1 in
  let ko := turn h 64 (Settle n (Rejected e)) w1 in
  trace (store w1) = trace (store w) ++ [Request (OnSetBreakpoints params) n]
  ∧ _launchBlocker (launcher (store w1)) = 1 + n
  ∧ status w1 n = Pending
  ∧ status w1 (1 + n) = Pending
  ∧ microtasks w1 = []
  ∧ status ok (1 + n) = Fulfilled (VArray [v0; v])
  ∧ status ko (1 + n) = Rejected e
  ∧ store ok = store w1
  ∧ store ko = store w1
  ∧ microtasks ok = []
  ∧ microtasks ko = [].
Proof.
  intros Hq Hp Hb Hlt n w1 ok ko.
  unfold status, promise in Hb.
  destruct (heap w !! _launchBlocker (launcher (store w))) as [[st rs es]|] eqn:Hcell;
    cbn in Hb; [subst st|done].
  set (s1 := upd_launcher (set_launchBlocker (S n))
               (emit (Request (OnSetBreakpoints params) n) (store w))).
  assert (w1 = {| store := s1;
                  heap := <[S n := {| state := Pending; reactions := [];
                                      elements := [Some v0; None] |}]>
                            (<[n := {| state := Pending;
                                       reactions := [RAllElement (S n) 1];
                                       elements := [] |}]>
                               (<[S n := {| state := Pending; reactions := [];
                                            elements := [None; None] |}]>
                                  (<[n := pending_cell]> (heap w))));
                  next_pid := 2 + n; microtasks := []; timers := timers w |})
    as E1.
  { subst w1. unfold turn, invoke. rewrite predict_exec by done. wred.
    erewrite (subscribe_fulfilled (_launchBlocker (launcher (store w))))
      by (wred; first [rewrite !lookup_insert_ne by lia; exact Hcell | done]).
    wred.
    erewrite (subscribe_pending (next_pid w))
      by (wred; heap_norm; reflexivity).
    wred. rewrite Hq. cbn [app].
    erewrite drain_cons by reflexivity.
    cbn [run_job]. unfold promise. wred. heap_norm.
    unfold id. cbn [from_option state reactions elements].
    change (<[0:=Some v0]> [None; None]) with [Some v0; @None value].
    rewrite all_values_pair.
    rewrite drain_nil by done. reflexivity. }
  assert (ok = {| store := s1;
                  heap := <[S n := {| state := Fulfilled (VArray [v0; v]);
                                      reactions := [];
                                      elements := [Some v0; Some v] |}]>
                            (<[S n := {| state := Pending; reactions := [];
                                         elements := [Some v0; Some v] |}]>
                               (<[n := {| state := Fulfilled v; reactions := [];
                                          elements := [] |}]> (heap w1)));
                  next_pid := 2 + n; microtasks := []; timers := timers w |})
    as Eok.
  { subst ok. rewrite E1. unfold turn.
    erewrite settle_fulfilled by (wred; heap_norm; reflexivity).
    wred. erewrite drain_cons by reflexivity.
    cbn [run_job]. unfold promise. wred. heap_norm.
    unfold id. cbn [from_option state reactions elements].
    change (<[1:=Some v]> [Some v0; None]) with [Some v0; Some v].
    rewrite all_values_pair.
    erewrite settle_fulfilled by (wred; heap_norm; reflexivity).
    wred. rewrite drain_nil by done. reflexivity. }
  assert (ko = {| store := s1;
                  heap := <[S n := {| state := Rejected e; reactions := [];
                                      elements := [Some v0; None] |}]>
                            (<[n := {| state := Rejected e; reactions := [];
                                       elements := [] |}]> (heap w1));
                  next_pid := 2 + n; microtasks := []; timers := timers w |})
    as Eko.
  { subst ko. rewrite E1. unfold turn.
    erewrite settle_rejected by (wred; heap_norm; reflexivity).
    wred. erewrite drain_cons by reflexivity.
    cbn [run_job].
    erewrite settle_rejected by (wred; heap_norm; reflexivity).
    wred. rewrite drain_nil by done. reflexivity. }
  rewrite Eok, Eko, E1.
  cbn [store heap next_pid microtasks timers].
  unfold status, promise. cbn [heap].
  split_and!; try reflexivity.
  - by rewrite lookup_insert_ne, lookup_insert_eq by lia.
  - by rewrite lookup_insert_eq.
  - by rewrite lookup_insert_eq.
  - by rewrite lookup_insert_eq.
Qed.

End fan_in.

(** ** The environment of the launched terminal *)

Section launch_environment.

(** The environment [_buildEnv()] hands to the terminal.  The launch
    configuration's [env] wins over the environment of the adapter's own
    process, which supplies the keys the configuration leaves out, except
    for four keys that neither can set: [NODE_INSPECTOR_IPC] is the pipe,
    [NODE_INSPECTOR_WAIT_FOR_DEBUGGER] is [attachToNode] or ["never"],
    [NODE_OPTIONS] is rebuilt, and [ELECTRON_RUN_AS_NODE] is always
    removed. *)
Theorem buildEnv_precedence (h : Host) (l : NodeLauncher) (lp : LaunchParams) :
  _launchParams l = Some lp →
  ∃ e, _buildEnv h l = Some e
  ∧ e !! "NODE_INSPECTOR_IPC" = Some (_pipe l)
  ∧ e !! "NODE_INSPECTOR_WAIT_FOR_DEBUGGER"
    = Some (Some (or_else (attachToNode lp) "never"))
  ∧ e !! "ELECTRON_RUN_AS_NODE" = None
  ∧ (∀ k v, k ≠ "NODE_INSPECTOR_IPC" →
            k ≠ "NODE_INSPECTOR_WAIT_FOR_DEBUGGER" →
            k ≠ "NODE_OPTIONS" → k ≠ "ELECTRON_RUN_AS_NODE" →
            default ∅ (env lp) !! k = Some v → e !! k = Some (Some v))
  ∧ (∀ k, k ≠ "NODE_INSPECTOR_IPC" →
          k ≠ "NODE_INSPECTOR_WAIT_FOR_DEBUGGER" →
          k ≠ "NODE_OPTIONS" → k ≠ "ELECTRON_RUN_AS_NODE" →
          default ∅ (env lp) !! k = None →
          e !! k = Some <$> process_env h !! k).
Proof.
  intros Hlp.
  destruct (_buildEnv_lookup h l lp Hlp) as (e & He & Hipc & Hw & _ & Hel & Hk).
  exists e. split_and!; try done.
  - intros k v ? ? ? ? Hv. rewrite Hk by done. by rewrite Hv.
  - intros k ? ? ? ? Hv. rewrite Hk by done. by rewrite Hv.
Qed.

End launch_environment.


Section witnesses.

Lemma unknown_opener_is_root_witness :
  openerId (created "T" (Some "X")) = Some "X"
  ∧ _targets (launcher (NodeTarget_new linux 1 10 20 (created "R" None) idle).2)
      !! "X" = None
  ∧ Target.hasParent
      (NodeTarget_new linux 2 11 21 (created "T" (Some "X"))
         (NodeTarget_new linux 1 10 20 (created "R" None) idle).2).2 1 = false.
Proof.
  assert (_targets (launcher (NodeTarget_new linux 1 10 20 (created "R" None) idle).2)
            !! "X" = None) as H by (vm_compute; reflexivity).
  split; [reflexivity|]. split; [exact H|].
  exact (proj1 (proj2 (unknown_opener_is_root linux 2 11 21
                         (created "T" (Some "X")) "X" _ eq_refl H))).
Defined.


Lemma onProcessExit_probe_tolerance_witness :
  let w0 := watch (VNum 500) (Put (emit FireTerminated) (Ret VUndefined))
              (boot None) in
  fired_terminated
    (store (ticks 0 [(λ _, KillOk); (λ _, KillThrows (Some "EPERM"));
                     gone 500; gone 500; gone 500] w0)) = 1.
Proof.
  intros w0.
  destruct (onProcessExit_probe_tolerance (boot None) (VNum 500)
              (Put (emit FireTerminated) (Ret VUndefined)))
    as (_ & _ & _ & _ & _ & Honce).
  destruct (Honce (emit FireTerminated)
              [(λ _, KillOk); (λ _, KillThrows (Some "EPERM"))]
              (gone 500) [gone 500; gone 500] eq_refl) as [Hstore _].
  - constructor; [left; reflexivity|].
    constructor; [right; reflexivity|]. constructor.
  - intros [H | H]; vm_compute in H; discriminate H.
  - etransitivity; [exact (f_equal fired_terminated Hstore) | reflexivity].
Defined.

Lemma attach_failure_marks_attached_witness :
  microtasks session = []
  ∧ _attached (target (store session) 0) = false
  ∧ status session 3 = Fulfilled VUndefined
  ∧ _attached
      (target
         (store (turn linux 64 (Settle 8 (Rejected (VError (Some "ECONNRESET"))))
                   (turn linux 64 (Invoke (Attach 0)) session))) 0) = true.
Proof.
  split; [reflexivity|]. split; [reflexivity|]. split; [reflexivity|].
  assert (objs (store session) !! 0 = Some (target (store session) 0)) as Ho
    by (vm_compute; reflexivity).
  pose proof (attach_failure_marks_attached linux session 0 _ VUndefined
                (VError (Some "ECONNRESET")) eq_refl Ho eq_refl eq_refl) as H.
  cbv zeta in H.
  refine (proj1 (proj2 (proj2 (proj2 (H _))))).
  vm_compute. lia.
Defined.

Lemma concurrent_attach_one_call_witness :
  microtasks session = []
  ∧ _attached (target (store session) 0) = false
  ∧ status session 3 = Fulfilled VUndefined
  ∧ status
      (turn linux 64 (Settle 8 (Fulfilled VUndefined))
         (turns linux 64 [Invoke (Attach 0); Invoke (Attach 0)] session)) 9
    = Fulfilled VUndefined.
Proof.
  split; [reflexivity|]. split; [reflexivity|]. split; [reflexivity|].
  assert (objs (store session) !! 0 = Some (target (store session) 0)) as Ho
    by (vm_compute; reflexivity).
  pose proof (concurrent_attach_one_call linux session 0 _ VUndefined VUndefined
                VUndefined eq_refl Ho eq_refl eq_refl) as H.
  cbv zeta in H.
  refine (proj1 (proj2 (proj2 (proj2 (proj2 (H _)))))).
  vm_compute. lia.
Defined.



Lemma known_opener_is_parent_witness :
  (openerId (created "T" (Some "R")) = Some "R"
   ∧ _targets (launcher root_only) !! "R" = Some 0
   ∧ objs root_only !! 0 = Some (target root_only 0)
   ∧ objs root_only !! next_ref root_only = None)
  ∧ Target.parent
      (NodeTarget_new linux 2 11 21 (created "T" (Some "R")) root_only).2
      (NodeTarget_new linux 2 11 21 (created "T" (Some "R")) root_only).1
    = Some 0.
Proof.
  assert (_targets (launcher root_only) !! "R" = Some 0) as H1
    by (vm_compute; reflexivity).
  assert (objs root_only !! 0 = Some (target root_only 0)) as H2
    by (vm_compute; reflexivity).
  assert (objs root_only !! next_ref root_only = None) as H3
    by (vm_compute; reflexivity).
  split; [by split_and!|].
  exact (proj1 (known_opener_is_parent linux 2 11 21 (created "T" (Some "R")) "R"
                  0 _ root_only eq_refl H1 H2 H3)).
Defined.

Lemma connect_then_disconnect_witness :
  (objs root_only !! next_ref root_only = None
   ∧ _targets (launcher root_only) !! "T" = None)
  ∧ launcher
      (_disconnected
         (NodeTarget_new linux 2 11 21 (created "T" (Some "R")) root_only).1
         (NodeTarget_new linux 2 11 21 (created "T" (Some "R")) root_only).2)
    = launcher root_only.
Proof.
  assert (objs root_only !! next_ref root_only = None) as H1
    by (vm_compute; reflexivity).
  assert (_targets (launcher root_only) !! "T" = None) as H2
    by (vm_compute; reflexivity).
  split; [by split|].
  refine (proj1 (connect_then_disconnect linux 2 11 21 (created "T" (Some "R"))
                   root_only H1 H2 _)).
  intros p Hp. vm_compute in Hp. injection Hp as <-.
  exists (target root_only 0). split; [vm_compute; reflexivity|].
  vm_compute. by intros ?%elem_of_nil.
Defined.

Lemma disconnected_moves_even_children_witness :
  (objs family !! 1 = Some (target family 1)
   ∧ _children (target family 1) = [2; 3]
   ∧ _parent (target family 1) = Some 0)
  ∧ Target.children (_disconnected 1 family) 1 = odds (_children (target family 1)).
Proof.
  assert (objs family !! 1 = Some (target family 1)) as H1
    by (vm_compute; reflexivity).
  assert (_children (target family 1) = [2; 3]) as H2 by (vm_compute; reflexivity).
  assert (_parent (target family 1) = Some 0) as H3 by (vm_compute; reflexivity).
  split; [by split_and!|].
  refine (proj1 (disconnected_moves_even_children family 1 (target family 1)
                   H1 _ _ _ _)).
  - rewrite H2. apply NoDup_cons. split; [by intros ?%list_elem_of_singleton|].
    apply NoDup_singleton.
  - rewrite H2. intros [?|[?|?%elem_of_nil]%elem_of_cons]%elem_of_cons; done.
  - rewrite H2. intros c [->|[->|?%elem_of_nil]%elem_of_cons]%elem_of_cons;
      [exists (target family 2) | exists (target family 3) | done];
      split; vm_compute; reflexivity.
  - rewrite H3, H2. intros p [= <-]. split_and!; [done | |].
    + intros [?|[?|?%elem_of_nil]%elem_of_cons]%elem_of_cons; done.
    + exists (target family 0). vm_compute. reflexivity.
Defined.

Lemma terminate_stops_everything_witness :
  microtasks session = []
  ∧ status (turn linux 64 (Invoke Terminate) session) (next_pid session)
    = Fulfilled VUndefined.
Proof.
  split; [reflexivity|].
  exact (proj1 (proj2 (terminate_stops_everything linux 62 session eq_refl))).
Defined.

Lemma restart_before_launch_is_rejected_witness :
  (microtasks (boot (Some "/ws")) = []
   ∧ _launchParams (launcher (store (boot (Some "/ws")))) = None)
  ∧ status (turn linux 64 (Invoke Restart) (boot (Some "/ws")))
      (next_pid (boot (Some "/ws")))
    = Rejected TypeError.
Proof.
  split; [by split|].
  exact (proj1 (restart_before_launch_is_rejected linux 61 (boot (Some "/ws"))
                  eq_refl eq_refl)).
Defined.

Lemma detach_when_not_attached_witness :
  (microtasks session = []
   ∧ objs (store session) !! 0 = Some (target (store session) 0)
   ∧ _attached (target (store session) 0) = false
   ∧ status session (_serialize (target (store session) 0)) = Fulfilled VUndefined
   ∧ _serialize (target (store session) 0) < next_pid session)
  ∧ trace (store (turn linux 64 (Invoke (Detach 0)) session))
    = trace (store session).
Proof.
  assert (objs (store session) !! 0 = Some (target (store session) 0)) as Ho
    by (vm_compute; reflexivity).
  assert (_attached (target (store session) 0) = false) as Ha
    by (vm_compute; reflexivity).
  assert (status session (_serialize (target (store session) 0))
          = Fulfilled VUndefined) as Hs by (vm_compute; reflexivity).
  assert (_serialize (target (store session) 0) < next_pid session) as Hlt
    by (vm_compute; lia).
  split; [split_and!; [reflexivity | exact Ho | exact Ha | exact Hs | exact Hlt]|].
  exact (proj1 (detach_when_not_attached linux session 0 _ VUndefined
                  eq_refl Ho Ha Hs Hlt)).
Defined.

Lemma detach_returns_before_the_remote_call_witness :
  (microtasks attached_session = []
   ∧ objs (store attached_session) !! 0 = Some (target (store attached_session) 0)
   ∧ _attached (target (store attached_session) 0) = true
   ∧ status attached_session (_serialize (target (store attached_session) 0))
     = Fulfilled (VCdpApi 0)
   ∧ _serialize (target (store attached_session) 0) < next_pid attached_session)
  ∧ status (turn linux 64 (Invoke (Detach 0)) attached_session)
      (4 + next_pid attached_session)
    = Pending.
Proof.
  assert (microtasks attached_session = []) as Hq by (vm_compute; reflexivity).
  assert (objs (store attached_session) !! 0
          = Some (target (store attached_session) 0)) as Ho
    by (vm_compute; reflexivity).
  assert (_attached (target (store attached_session) 0) = true) as Ha
    by (vm_compute; reflexivity).
  assert (status attached_session (_serialize (target (store attached_session) 0))
          = Fulfilled (VCdpApi 0)) as Hs by (vm_compute; reflexivity).
  assert (_serialize (target (store attached_session) 0)
          < next_pid attached_session) as Hlt by (vm_compute; lia).
  split; [split_and!; [exact Hq | exact Ho | exact Ha | exact Hs | exact Hlt]|].
  exact (proj1 (proj2 (detach_returns_before_the_remote_call linux attached_session
                         0 _ (VCdpApi 0) VUndefined VUndefined Hq Ho Ha Hs Hlt))).
Defined.

Lemma attach_detach_attach_witness :
  (microtasks session = []
   ∧ objs (store session) !! 0 = Some (target (store session) 0)
   ∧ _attached (target (store session) 0) = false
   ∧ status session (_serialize (target (store session) 0)) = Fulfilled VUndefined
   ∧ _serialize (target (store session) 0) < next_pid session)
  ∧ status
      (turn linux 64 (Settle (4 + next_pid session) (Fulfilled VUndefined))
         (turn linux 64 (Invoke (Attach 0)) session))
      (next_pid session)
    = Fulfilled (VCdpApi (_cdp (target (store session) 0))).
Proof.
  assert (objs (store session) !! 0 = Some (target (store session) 0)) as Ho
    by (vm_compute; reflexivity).
  assert (_attached (target (store session) 0) = false) as Ha
    by (vm_compute; reflexivity).
  assert (status session (_serialize (target (store session) 0))
          = Fulfilled VUndefined) as Hs by (vm_compute; reflexivity).
  assert (_serialize (target (store session) 0) < next_pid session) as Hlt
    by (vm_compute; lia).
  split; [split_and!; [reflexivity | exact Ho | exact Ha | exact Hs | exact Hlt]|].
  exact (proj1 (attach_detach_attach linux session 0 _ VUndefined VUndefined
                  VUndefined VUndefined eq_refl Ho Ha Hs Hlt)).
Defined.

Lemma startSession_registers_target_witness :
  microtasks (boot (Some "/ws")) = []
  ∧ _connections (launcher (store (turn linux 64 (Accept 7) (boot (Some "/ws")))))
    = _connections (launcher (store (boot (Some "/ws")))) ++ [7].
Proof.
  split; [reflexivity|].
  exact (proj1 (startSession_registers_target linux (boot (Some "/ws")) 7
                  (created "100" None) eq_refl)).
Defined.

Lemma launch_opens_terminal_witness :
  (microtasks (boot (Some "/ws")) = []
   ∧ command node_app = Some "node app.js"
   ∧ status (boot (Some "/ws"))
       (_launchBlocker (launcher (store (boot (Some "/ws")))))
     = Fulfilled VUndefined
   ∧ _launchBlocker (launcher (store (boot (Some "/ws"))))
     < next_pid (boot (Some "/ws")))
  ∧ status
      (turn linux 64 (Settle (2 + next_pid (boot (Some "/ws"))) (Fulfilled (VNum 500)))
         (turn linux 64 (Invoke (Launch node_app)) (boot (Some "/ws"))))
      (next_pid (boot (Some "/ws")))
    = Fulfilled VUndefined.
Proof.
  assert (status (boot (Some "/ws"))
            (_launchBlocker (launcher (store (boot (Some "/ws")))))
          = Fulfilled VUndefined) as Hs by (vm_compute; reflexivity).
  assert (_launchBlocker (launcher (store (boot (Some "/ws"))))
          < next_pid (boot (Some "/ws"))) as Hlt by (vm_compute; lia).
  split; [split_and!; [reflexivity | reflexivity | exact Hs | exact Hlt]|].
  destruct (launch_opens_terminal linux (boot (Some "/ws")) node_app "node app.js"
              VUndefined (VNum 500) eq_refl eq_refl Hs Hlt) as (e & H).
  exact (proj1 (proj2 (proj2 (proj2 (proj2 (proj2 (proj2 (proj2 (proj2 (proj2
           (proj2 H))))))))))).
Defined.

Lemma predict_without_predictor_witness :
  (_breakpointsPredictor (launcher (store (boot None))) = false
   ∧ microtasks (boot None) = [])
  ∧ store (turns linux 64 (Invoke ∘ PredictBreakpoints <$> [1; 2; 3]) (boot None))
    = store (boot None).
Proof.
  split; [by split|].
  exact (proj1 (predict_without_predictor linux 64 (boot None) [1; 2; 3] 4
                  eq_refl eq_refl)).
Defined.

Lemma exit_watcher_fires_once_witness :
  (timers (watch (VNum 500) on_exit (boot None)) !! 0
   = Some {| handler := exit_probe (VNum 500) on_exit 0; period := 1000;
             active := true |}
   ∧ ¬ benign (VNum 500) (gone 500))
  ∧ fired_terminated
      (store (tick 0 (gone 500) (watch (VNum 500) on_exit (boot None))))
    = (if _isRestarting (launcher (store (watch (VNum 500) on_exit (boot None))))
       then 0 else 1)
      + fired_terminated (store (watch (VNum 500) on_exit (boot None))).
Proof.
  assert (timers (watch (VNum 500) on_exit (boot None)) !! 0
          = Some {| handler := exit_probe (VNum 500) on_exit 0; period := 1000;
                    active := true |}) as H1 by reflexivity.
  assert (¬ benign (VNum 500) (gone 500)) as H2.
  { intros [H | H]; vm_compute in H; discriminate H. }
  split; [by split|].
  exact (proj1 (proj2 (exit_watcher_fires_once _ 0 (VNum 500) 1000 (gone 500) []
                         H1 H2))).
Defined.

Lemma rewriteSourceUrl_idempotent_witness :
  (∀ p u, file_url p = Some u → is_file_url u = true)
  ∧ rewriteSourceUrl is_file_url file_url (Some "/ws")
      (rewriteSourceUrl is_file_url file_url (Some "/ws") "/ws/app.js")
    = rewriteSourceUrl is_file_url file_url (Some "/ws") "/ws/app.js".
Proof.
  assert (∀ p u, file_url p = Some u → is_file_url u = true) as H.
  { intros p u [= <-]. vm_compute. by destruct p. }
  split; [exact H|].
  exact (proj1 (rewriteSourceUrl_idempotent file_url is_file_url (Some "/ws")
                  "/ws/app.js") H).
Defined.

Lemma buildEnv_precedence_witness :
  _launchParams launched_with_node_options = Some with_node_options
  ∧ ∃ e, _buildEnv linux launched_with_node_options = Some e
         ∧ e !! "ELECTRON_RUN_AS_NODE" = None.
Proof.
  split; [reflexivity|].
  destruct (buildEnv_precedence linux launched_with_node_options with_node_options
              eq_refl) as (e & He & _ & _ & Hel & _).
  exists e. by split.
Defined.

Lemma launch_without_command_returns_witness :
  (microtasks (boot (Some "/ws")) = [] ∧ command no_command = None)
  ∧ store (turn linux 64 (Invoke (Launch no_command)) (boot (Some "/ws")))
    = store (boot (Some "/ws")).
Proof.
  split; [by split|].
  exact (proj1 (launch_without_command_returns linux 64 (boot (Some "/ws"))
                  no_command eq_refl eq_refl)).
Defined.

Lemma launch_behind_failed_prediction_witness :
  (microtasks failed_prediction = []
   ∧ command node_app = Some "node app.js"
   ∧ status failed_prediction (_launchBlocker (launcher (store failed_prediction)))
     = Rejected (VError None)
   ∧ _launchBlocker (launcher (store failed_prediction))
     < next_pid failed_prediction)
  ∧ status (turn linux 64 (Invoke (Launch node_app)) failed_prediction)
      (next_pid failed_prediction)
    = Rejected (VError None).
Proof.
  assert (microtasks failed_prediction = []) as Hq by (vm_compute; reflexivity).
  assert (status failed_prediction
            (_launchBlocker (launcher (store failed_prediction)))
          = Rejected (VError None)) as Hs by (vm_compute; reflexivity).
  assert (_launchBlocker (launcher (store failed_prediction))
          < next_pid failed_prediction) as Hlt by (vm_compute; lia).
  split; [split_and!; [exact Hq | reflexivity | exact Hs | exact Hlt]|].
  exact (proj1 (proj2 (launch_behind_failed_prediction linux 62 failed_prediction
                         node_app "node app.js" (VError None) Hq eq_refl Hs Hlt))).
Defined.

Lemma restart_replaces_server_and_terminal_witness :
  (microtasks launched = []
   ∧ _launchParams (launcher (store launched)) = Some node_app)
  ∧ _isRestarting
      (launcher
         (store (turn linux 64 (Settle (2 + next_pid launched) (Fulfilled (VNum 501)))
                   (turn linux 64 (Invoke Restart) launched))))
    = false.
Proof.
  assert (microtasks launched = []) as Hq by (vm_compute; reflexivity).
  assert (_launchParams (launcher (store launched)) = Some node_app) as Hlp
    by (vm_compute; reflexivity).
  split; [by split|].
  destruct (restart_replaces_server_and_terminal linux launched node_app (VNum 501)
              Hq Hlp) as (e & H).
  exact (proj1 (proj2 (proj2 (proj2 (proj2 (proj2 (proj2 H))))))).
Defined.

Lemma predict_extends_blocker_witness :
  (microtasks (boot (Some "/ws")) = []
   ∧ _breakpointsPredictor (launcher (store (boot (Some "/ws")))) = true
   ∧ status (boot (Some "/ws"))
       (_launchBlocker (launcher (store (boot (Some "/ws")))))
     = Fulfilled VUndefined
   ∧ _launchBlocker (launcher (store (boot (Some "/ws"))))
     < next_pid (boot (Some "/ws")))
  ∧ status
      (turn linux 64 (Settle (next_pid (boot (Some "/ws"))) (Fulfilled (VNum 1)))
         (turn linux 64 (Invoke (PredictBreakpoints 1)) (boot (Some "/ws"))))
      (1 + next_pid (boot (Some "/ws")))
    = Fulfilled (VArray [VUndefined; VNum 1]).
Proof.
  assert (status (boot (Some "/ws"))
            (_launchBlocker (launcher (store (boot (Some "/ws")))))
          = Fulfilled VUndefined) as Hs by (vm_compute; reflexivity).
  assert (_launchBlocker (launcher (store (boot (Some "/ws"))))
          < next_pid (boot (Some "/ws"))) as Hlt by (vm_compute; lia).
  split; [split_and!; [reflexivity | reflexivity | exact Hs | exact Hlt]|].
  exact (proj1 (proj2 (proj2 (proj2 (proj2 (proj2
           (predict_extends_blocker linux (boot (Some "/ws")) 1 VUndefined
              (VNum 1) VUndefined eq_refl eq_refl Hs Hlt))))))).
Defined.

End witnesses.
